(** * The gateway service: order validation and product enrichment

    A shallow embedding of [gateway/service.py] (class [GatewayService]).
    Python dictionaries are finite maps from strings to JSON-like values,
    exceptions are an error result, and the two RPC proxies are an abstract
    backend whose calls are recorded in a trace. *)

From stdpp Require Import gmap strings list fin_maps.
From Stdlib Require Import ZArith.

Set Warnings "-register-all,-clear-no-such-hyp".

(** ** Values

    The payloads handled by the service are what JSON decoding and the RPC
    layer produce: [None], booleans, numbers, strings, lists and
    string-keyed dictionaries. *)

Inductive value : Type :=
  | VNone
  | VBool (b : bool)
  | VInt (z : Z)
  | VStr (s : string)
  | VList (l : list value)
  | VDict (d : gmap string value).

(** ** Exceptions

    [TypeError] stands for every use of a value at a type outside the data
    model (subscripting something that is not a dictionary, iterating over
    something that is not a list, a product id that is not a string). *)

Inductive exn : Type :=
  | KeyError (key : string)
  | TypeError
  | ValueError (msg : string)
  | ValidationError (messages : value)
  | BadRequest (msg : string)
  | ProductNotFound (msg : string)
  | OrderNotFound (msg : string)
  | RemoteError (msg : string).

Inductive exn_class : Type :=
  | KeyError_cls
  | TypeError_cls
  | ValueError_cls
  | ValidationError_cls
  | BadRequest_cls
  | ProductNotFound_cls
  | OrderNotFound_cls
  | RemoteError_cls.

Global Instance exn_class_eq_dec : EqDecision exn_class.
Proof. solve_decision. Defined.

Definition class_of (e : exn) : exn_class :=
  match e with
  | KeyError _ => KeyError_cls
  | TypeError => TypeError_cls
  | ValueError _ => ValueError_cls
  | ValidationError _ => ValidationError_cls
  | BadRequest _ => BadRequest_cls
  | ProductNotFound _ => ProductNotFound_cls
  | OrderNotFound _ => OrderNotFound_cls
  | RemoteError _ => RemoteError_cls
  end.

(** [isinstance exc classes]: the exception classes of the service are
    unrelated by inheritance, so this is membership. *)
Definition isinstance (e : exn) (classes : list exn_class) : bool :=
  bool_decide (class_of e ∈ classes).

(** ** Results of code that may raise *)

Inductive result (A : Type) : Type :=
  | Ok (a : A)
  | Raise (e : exn).
Arguments Ok {A} a.
Arguments Raise {A} e.

Global Instance result_ret : MRet result := λ A a, Ok a.
Global Instance result_bind : MBind result := λ A B f m,
  match m with
  | Ok a => f a
  | Raise e => Raise e
  end.

(** ** Python primitives on values *)

(** [v[key]] *)
Definition getitem (v : value) (key : string) : result value :=
  match v with
  | VDict d =>
      match d !! key with
      | Some x => Ok x
      | None => Raise (KeyError key)
      end
  | _ => Raise TypeError
  end.

(** [v[key] = x] *)
Definition setitem (v : value) (key : string) (x : value) : result value :=
  match v with
  | VDict d => Ok (VDict (<[key := x]> d))
  | _ => Raise TypeError
  end.

(** [for x in v] over a list.  Python also iterates over a dictionary
    (its keys) and over a string (its characters); these are outside the
    data model and are reported as [TypeError] here. *)
Definition iter (v : value) : result (list value) :=
  match v with
  | VList l => Ok l
  | _ => Raise TypeError
  end.

(** A product id is a string.  The source does not check it: an id of
    another type is outside the data model and is reported as [TypeError]
    here. *)
Definition as_str (v : value) : result string :=
  match v with
  | VStr s => Ok s
  | _ => Raise TypeError
  end.

(** [d.update(other)]: the entries of [other] win. *)
Definition update (v other : value) : result value :=
  match v, other with
  | VDict d, VDict o => Ok (VDict (o ∪ d))
  | _, _ => Raise TypeError
  end.

(** [[f(x) for x in l]], stopping at the first exception. *)
Fixpoint comprehension {A B : Type} (f : A → result B) (l : list A)
    : result (list B) :=
  match l with
  | [] => Ok []
  | x :: rest =>
      y ← f x;
      ys ← comprehension f rest;
      Ok (y :: ys)
  end.

(** ** The pure helpers of [GatewayService] *)

(** [order_detail['product_id']] *)
Definition product_id_of (order_detail : value) : result string :=
  getitem order_detail "product_id" ≫= as_str.

(** [_get_product_ids_from_order]:
    [[order_detail['product_id'] for order_detail in order['order_details']]] *)
Definition _get_product_ids_from_order (order : value) : result (list string) :=
  order_details ← getitem order "order_details" ≫= iter;
  comprehension product_id_of order_details.

(** The loop of [_get_product_ids_from_orders]: each order's ids are
    appended ([extend]) to the accumulated list. *)
Fixpoint extend_product_ids (orders : list value) (all_product_ids : list string)
    : result (list string) :=
  match orders with
  | [] => Ok all_product_ids
  | order :: rest =>
      order_product_ids ← _get_product_ids_from_order order;
      extend_product_ids rest (all_product_ids ++ order_product_ids)
  end.

Definition _get_product_ids_from_orders (orders : value) : result (list string) :=
  orders ← iter orders;
  extend_product_ids orders [].

(** [{prod['id']: prod for prod in products}]: later entries replace
    earlier ones with the same id. *)
Fixpoint product_map_from (products : list value) (acc : gmap string value)
    : result (gmap string value) :=
  match products with
  | [] => Ok acc
  | prod :: rest =>
      id ← getitem prod "id" ≫= as_str;
      product_map_from rest (<[id := prod]> acc)
  end.

Definition product_map_of (products : value) : result (gmap string value) :=
  products ← iter products;
  product_map_from products ∅.

(** [{prod['id'] for prod in products}] *)
Fixpoint product_id_set_from (products : list value) (acc : gset string)
    : result (gset string) :=
  match products with
  | [] => Ok acc
  | prod :: rest =>
      id ← getitem prod "id" ≫= as_str;
      product_id_set_from rest ({[id]} ∪ acc)
  end.

Definition product_id_set_of (products : value) : result (gset string) :=
  products ← iter products;
  product_id_set_from products ∅.

(** ['{}/{}.jpg'.format(image_root, product_id)] *)
Definition image_url (image_root product_id : string) : string :=
  image_root +:+ "/" +:+ product_id +:+ ".jpg".

(** ["Product Id {}".format(product_id)] *)
Definition product_not_found_message (product_id : string) : string :=
  "Product Id " +:+ product_id.

(** The body of the loop of [_fill_order_details_with_product]. *)
Definition fill_item (image_root : string) (product_map : gmap string value)
    (item : value) : result value :=
  product_id ← product_id_of item;
  product ← match product_map !! product_id with
            | Some p => Ok p
            | None => Raise (KeyError product_id)
            end;
  item ← setitem item "product" product;
  setitem item "image" (VStr (image_url image_root product_id)).

(** [_fill_order_details_with_product]: the line items are updated in
    place, so the returned order is the given one with its
    ['order_details'] list holding the updated items. *)
Definition _fill_order_details_with_product (image_root : string)
    (order : value) (product_map : gmap string value) : result value :=
  order_details ← getitem order "order_details" ≫= iter;
  items ← comprehension (fill_item image_root product_map) order_details;
  setitem order "order_details" (VList items).

(** The validation loop of [_create_order]: the first line item whose
    product id is not valid raises [ProductNotFound]. *)
Fixpoint check_product_ids (valid_product_ids : gset string)
    (order_details : list value) : result unit :=
  match order_details with
  | [] => Ok ()
  | item :: rest =>
      product_id ← product_id_of item;
      if bool_decide (product_id ∉ valid_product_ids)
      then Raise (ProductNotFound (product_not_found_message product_id))
      else check_product_ids valid_product_ids rest
  end.

(** ** Remote calls

    [products_rpc] and [orders_rpc] are RPC proxies to the two backend
    services.  A call is one method invocation with its argument. *)

Inductive call : Type :=
  | products_get (product_id : string)
  | products_delete (product_id : string)
  | products_create (product_data : value)
  | products_list (product_ids : list string)
  | orders_get_order (order_id : Z)
  | orders_list_orders
  | orders_create_order (order_details : value).

Record Response : Type := mkResponse {
  response_data : string;
  mimetype : string
}.

(** What the caller of an HTTP entrypoint observes. *)
Inductive outcome : Type :=
  | Responded (r : Response)
  | ClientError (e : exn)
  | ServerFault (e : exn).

(** The [expected_exceptions] declared by each entrypoint. *)
Definition get_product_expected_exceptions : list exn_class :=
  [ProductNotFound_cls].
Definition remove_product_expected_exceptions : list exn_class :=
  [ProductNotFound_cls].
Definition create_product_expected_exceptions : list exn_class :=
  [ValidationError_cls; BadRequest_cls].
Definition list_orders_expected_exceptions : list exn_class :=
  [].
Definition get_order_expected_exceptions : list exn_class :=
  [OrderNotFound_cls].
Definition create_order_expected_exceptions : list exn_class :=
  [ValidationError_cls; ProductNotFound_cls; BadRequest_cls].

Section Gateway.

(** The backend services: any state, any reply to any call. *)
Context {backend : Type}.
Variable rpc : call → backend → result value * backend.

(** [config['PRODUCT_IMAGE_ROOT']] *)
Variable PRODUCT_IMAGE_ROOT : string.

(** Serializers and parsers of [json] and of [gateway.schemas], which
    are used as black boxes.  [json_loads] gives the decoded document or
    the message of the [ValueError] raised on text that is not JSON; a
    schema's [load] gives the validated data or the messages of the
    [ValidationError] raised in strict mode. *)
Variable json_dumps : value → string.
Variable json_loads : string → string + value.
Variable ProductSchema_dumps : value → string.
Variable ProductSchema_load : value → value + value.
Variable GetOrderSchema_dumps : value → string.
Variable CreateOrderSchema_load : value → value + value.
Variable CreateOrderSchema_dump : value → value.

(** The state of a request: the backend and the calls made so far,
    oldest first. *)
Record world : Type := mkWorld {
  remote : backend;
  trace : list call
}.

Definition M (A : Type) : Type := world → result A * world.

Definition ret {A : Type} (a : A) : M A := λ w, (Ok a, w).

Definition raise {A : Type} (e : exn) : M A := λ w, (Raise e, w).

Definition bind {A B : Type} (m : M A) (f : A → M B) : M B := λ w,
  match m w with
  | (Ok a, w') => f a w'
  | (Raise e, w') => (Raise e, w')
  end.

Definition lift {A : Type} (r : result A) : M A := λ w, (r, w).

(** [try: m except ValueError as exc: handler(str(exc))] *)
Definition try_except_ValueError {A : Type} (m : M A) (handler : string → M A)
    : M A := λ w,
  match m w with
  | (Raise (ValueError msg), w') => handler msg w'
  | other => other
  end.

(** One RPC: the call is recorded and the backend answers. *)
Definition invoke (c : call) : M value := λ w,
  let (reply, remote') := rpc c (remote w) in
  (reply, mkWorld remote' (trace w ++ [c])).

Notation "'do' x <- m ; k" := (bind m (λ x, k))
  (at level 10, x name, m at level 100, k at level 200).

(** [schema.loads(text).data] for a strict schema. *)
Definition schema_loads (load : value → value + value) (text : string)
    : M value :=
  match json_loads text with
  | inl msg => raise (ValueError msg)
  | inr data =>
      match load data with
      | inl messages => raise (ValidationError messages)
      | inr loaded => ret loaded
      end
  end.

Definition json_response (data : string) : Response :=
  mkResponse data "application/json".

(** *** Products *)

Definition get_product (product_id : string) : M Response :=
  do product <- invoke (products_get product_id);
  ret (json_response (ProductSchema_dumps product)).

Definition remove_product (product_id : string) : M Response :=
  do product <- invoke (products_delete product_id);
  ret (json_response (ProductSchema_dumps product)).

Definition create_product (request_data : string) : M Response :=
  do product_data <-
    try_except_ValueError
      (schema_loads ProductSchema_load request_data)
      (λ exc, raise (BadRequest ("Invalid json: " +:+ exc)));
  do _ <- invoke (products_create product_data);
  do id <- lift (getitem product_data "id");
  ret (json_response (json_dumps (VDict {["id" := id]}))).

Definition _list_products (product_ids : list string) : M value :=
  invoke (products_list product_ids).

(** *** Orders *)

Definition _get_order (order_id : Z) : M value :=
  do order <- invoke (orders_get_order order_id);
  do order_product_ids <- lift (_get_product_ids_from_order order);
  do products <- _list_products order_product_ids;
  do product_map <- lift (product_map_of products);
  lift (_fill_order_details_with_product PRODUCT_IMAGE_ROOT order product_map).

Definition get_order (order_id : Z) : M Response :=
  do order <- _get_order order_id;
  ret (json_response (GetOrderSchema_dumps order)).

(** [order.update(self._fill_order_details_with_product(order, product_map))]:
    the filled order is the order itself, updated in place. *)
Definition fill_and_update (product_map : gmap string value) (order : value)
    : result value :=
  filled ← _fill_order_details_with_product PRODUCT_IMAGE_ROOT order product_map;
  update filled filled.

Definition _get_all_orders : M value :=
  do orders <- invoke orders_list_orders;
  do order_product_ids <- lift (_get_product_ids_from_orders orders);
  do products <- _list_products order_product_ids;
  do product_map <- lift (product_map_of products);
  do orders <- lift (iter orders ≫= comprehension (fill_and_update product_map));
  ret (VList orders).

Definition list_orders : M Response :=
  do orders <- _get_all_orders;
  ret (json_response (json_dumps orders)).

Definition _create_order (order_data : value) : M value :=
  do order_product_ids <- lift (_get_product_ids_from_order order_data);
  do products <- _list_products order_product_ids;
  do valid_product_ids <- lift (product_id_set_of products);
  do _ <- lift (order_details ← getitem order_data "order_details" ≫= iter;
                check_product_ids valid_product_ids order_details);
  let serialized_data := CreateOrderSchema_dump order_data in
  do order_details <- lift (getitem serialized_data "order_details");
  invoke (orders_create_order order_details).

(** The last step of [_create_order] on its own (the call to the
    orders service with the serialized line items), to state that
    validation has passed. *)
Definition submit_order (order_data : value) : M value :=
  let serialized_data := CreateOrderSchema_dump order_data in
  do order_details <- lift (getitem serialized_data "order_details");
  invoke (orders_create_order order_details).

Definition create_order (request_data : string) : M Response :=
  do order_data <-
    try_except_ValueError
      (schema_loads CreateOrderSchema_load request_data)
      (λ exc, raise (BadRequest ("Invalid json: " +:+ exc)));
  do order <- _create_order order_data;
  do id <- lift (getitem order "id");
  ret (json_response (json_dumps (VDict {["id" := id]}))).

(** *** The [http] entrypoints *)

(** Modelled from the spec: the [http] decorator of [gateway.entrypoints]
    is not part of the sources.  A handler's exception that is an instance
    of its [expected_exceptions] is answered as a client error; any other
    exception is a server fault. *)
Definition http (expected_exceptions : list exn_class) (handler : M Response)
    : world → outcome * world := λ w,
  match handler w with
  | (Ok r, w') => (Responded r, w')
  | (Raise e, w') =>
      if isinstance e expected_exceptions
      then (ClientError e, w')
      else (ServerFault e, w')
  end.

Definition GET_product (product_id : string) :=
  http get_product_expected_exceptions (get_product product_id).
Definition DELETE_product (product_id : string) :=
  http remove_product_expected_exceptions (remove_product product_id).
Definition POST_products (request_data : string) :=
  http create_product_expected_exceptions (create_product request_data).
Definition GET_orders_all :=
  http list_orders_expected_exceptions list_orders.
Definition GET_order (order_id : Z) :=
  http get_order_expected_exceptions (get_order order_id).
Definition POST_orders (request_data : string) :=
  http create_order_expected_exceptions (create_order request_data).

End Gateway.

(** ** The data model, for stating properties

    A line item is a dictionary with a string ['product_id']; an order (or
    an order payload) is a dictionary whose ['order_details'] is a list of
    line items; a product is a dictionary with a string ['id']. *)

Definition line_item (item : gmap string value) (product_id : string) : Prop :=
  item !! "product_id" = Some (VStr product_id).

Definition order_of (order : gmap string value)
    (items : list (gmap string value)) (product_ids : list string) : Prop :=
  order !! "order_details" = Some (VList (VDict <$> items)) ∧
  Forall2 line_item items product_ids.

Definition product (prod : gmap string value) (id : string) : Prop :=
  prod !! "id" = Some (VStr id).

(** The line item [item] after enrichment with [prod]. *)
Definition filled (image_root : string) (product_id : string) (prod : value)
    (item : gmap string value) : gmap string value :=
  <["image" := VStr (image_url image_root product_id)]> (<["product" := prod]> item).

Definition item_filled (image_root : string) (product_map : gmap string value)
    (item item' : gmap string value) : Prop :=
  ∃ product_id prod,
    line_item item product_id ∧
    product_map !! product_id = Some prod ∧
    item' = filled image_root product_id prod item.

(** The ids referenced by a collection of orders, line item by line item. *)
Definition referenced (contents : list (list (gmap string value) * list string))
    : list string :=
  concat (snd <$> contents).

(** Two dictionaries agree outside the keys [keys]. *)
Definition same_except (keys : list string) (d d' : gmap string value) : Prop :=
  ∀ k, k ∉ keys → d' !! k = d !! k.

Definition order_filled (image_root : string) (product_map : gmap string value)
    (order order' : gmap string value) : Prop :=
  ∃ items items',
    order !! "order_details" = Some (VList (VDict <$> items)) ∧
    order' = <["order_details" := VList (VDict <$> items')]> order ∧
    Forall2 (item_filled image_root product_map) items items'.

(** What enrichment leaves alone: every field of a line item other than
    ['product'] and ['image'], which are present afterwards; every field
    of an order other than ['order_details'], whose line items correspond
    one to one, in order. *)
Definition item_preserved (item item' : gmap string value) : Prop :=
  same_except ["product"; "image"] item item' ∧
  is_Some (item' !! "product") ∧ is_Some (item' !! "image").

Definition order_preserved (order order' : gmap string value) : Prop :=
  same_except ["order_details"] order order' ∧
  ∃ items items',
    order !! "order_details" = Some (VList (VDict <$> items)) ∧
    order' !! "order_details" = Some (VList (VDict <$> items')) ∧
    Forall2 item_preserved items items'.

(** The arguments of the catalog lookups in a trace, oldest first. *)
Definition lookups (t : list call) : list (list string) :=
  omap (λ c, match c with products_list ids => Some ids | _ => None end) t.

(** The arguments of the order creations in a trace, oldest first. *)
Definition creations (t : list call) : list value :=
  omap (λ c, match c with orders_create_order d => Some d | _ => None end) t.

(** ** A small shop

    A concrete backend, used to run the service on examples: the catalog is
    a list of products, the ledger a list of orders. *)

Module Demo.

Record shop : Type := mkShop {
  catalog : list (gmap string value);
  ledger : list (gmap string value)
}.

Definition has_id (id : value) (d : gmap string value) : bool :=
  match d !! "id", id with
  | Some (VStr s), VStr s' => bool_decide (s = s')
  | Some (VInt n), VInt n' => bool_decide (n = n')
  | _, _ => false
  end.

Definition find_by_id (id : value) (l : list (gmap string value))
    : option (gmap string value) :=
  snd <$> list_find (λ d, has_id id d = true) l.

Definition rpc (c : call) (s : shop) : result value * shop :=
  match c with
  | products_get id =>
      match find_by_id (VStr id) (catalog s) with
      | Some prod => (Ok (VDict prod), s)
      | None => (Raise (ProductNotFound id), s)
      end
  | products_delete id =>
      match find_by_id (VStr id) (catalog s) with
      | Some prod =>
          (Ok (VDict prod),
           mkShop (List.filter (λ d, negb (has_id (VStr id) d)) (catalog s))
                  (ledger s))
      | None => (Raise (ProductNotFound id), s)
      end
  | products_create (VDict prod) =>
      (Ok VNone, mkShop (catalog s ++ [prod]) (ledger s))
  | products_create _ => (Raise (RemoteError "product"), s)
  | products_list ids =>
      (Ok (VList (VDict <$>
             List.filter (λ d, existsb (λ id, has_id (VStr id) d) ids)
                         (catalog s))), s)
  | orders_get_order n =>
      match find_by_id (VInt n) (ledger s) with
      | Some order => (Ok (VDict order), s)
      | None => (Raise (OrderNotFound "order"), s)
      end
  | orders_list_orders => (Ok (VList (VDict <$> ledger s)), s)
  | orders_create_order details =>
      let order : gmap string value :=
        {[ "id" := VInt (Z.of_nat (S (length (ledger s))));
           "order_details" := details ]} in
      (Ok (VDict order), mkShop (catalog s) (ledger s ++ [order]))
  end.

Definition image_root : string := "http://img".

(** Stand-ins for the serializers: the response text only names the
    kind of document. *)
Definition json_dumps (v : value) : string :=
  match v with
  | VList l => "[...]"
  | VDict d => "{...}"
  | _ => "null"
  end.
Definition schema_dumps (v : value) : string :=
  match getitem v "id" with
  | Ok (VStr id) => "{id: " +:+ id +:+ ", ...}"
  | _ => "{...}"
  end.

(** A line item, an order payload and products. *)
Definition item (product_id : string) (quantity : Z) : gmap string value :=
  {[ "product_id" := VStr product_id;
     "price" := VStr "9.99";
     "quantity" := VInt quantity ]}.

Definition payload (items : list (gmap string value)) : gmap string value :=
  {[ "order_details" := VList (VDict <$> items) ]}.

Definition order (id : Z) (items : list (gmap string value))
    : gmap string value :=
  {[ "id" := VInt id; "order_details" := VList (VDict <$> items) ]}.

Definition p1 : gmap string value :=
  {[ "id" := VStr "p1"; "title" := VStr "T"; "in_stock" := VInt 10 ]}.
Definition p2 : gmap string value :=
  {[ "id" := VStr "p2"; "title" := VStr "U"; "in_stock" := VInt 3 ]}.

(** The parser knows a few request bodies; any other text is not JSON. *)
Definition json_loads (text : string) : string + value :=
  if bool_decide (text = "{}") then inr (VDict ∅)
  else if bool_decide (text = "p1") then inr (VDict p1)
  else if bool_decide (text = "order p1 ghost")
    then inr (VDict (payload [item "p1" 2; item "ghost" 1]))
  else if bool_decide (text = "order p1 p1")
    then inr (VDict (payload [item "p1" 2; item "p1" 1]))
  else inl "Expecting value".

Definition required (field : string) (data : value) : value + value :=
  match getitem data field with
  | Ok _ => inr data
  | Raise _ =>
      inl (VDict {[ field := VList [VStr "Missing data for required field."] ]})
  end.

Definition ProductSchema_load : value → value + value := required "id".
Definition CreateOrderSchema_load : value → value + value :=
  required "order_details".
Definition CreateOrderSchema_dump (data : value) : value := data.

Definition world0 (s : shop) : world := mkWorld s [].

Definition stocked : shop := mkShop [p1; p2] [].
Definition trading : shop :=
  mkShop [p1; p2] [order 1 [item "p1" 2; item "p1" 1]; order 2 [item "p2" 5]].
Definition idle : shop := mkShop [p1; p2] [order 1 []].
Definition closed : shop := mkShop [p1; p2] [].

(** A decoder that also knows the document [null], and a schema loader
    that, as marshmallow's [load] does, gives [None] back as it is,
    without looking at any field. *)
Definition json_loads_with_null (text : string) : string + value :=
  if bool_decide (text = "null") then inr VNone else json_loads text.

Definition none_passes (load : value → value + value) (data : value)
    : value + value :=
  match data with
  | VNone => inr VNone
  | _ => load data
  end.

(** The same backend with a catalog that answers [None] to whatever it is
    asked to create. *)
Definition rpc_accepting (c : call) (s : shop) : result value * shop :=
  match c with
  | products_create _ => (Ok VNone, s)
  | _ => rpc c s
  end.

(** The same backend with the catalog's lookup out of reach. *)
Definition rpc_catalog_down (c : call) (s : shop) : result value * shop :=
  match c with
  | products_list _ => (Raise (RemoteError "products"), s)
  | _ => rpc c s
  end.

End Demo.

(** ** Properties of the pure helpers *)

Lemma product_id_of_line_item item product_id :
  line_item item product_id → product_id_of (VDict item) = Ok product_id.
Proof. unfold line_item, product_id_of. simpl. intros ->. reflexivity. Qed.

Lemma comprehension_ok {A B} (f : A → result B) l l' :
  Forall2 (λ x y, f x = Ok y) l l' → comprehension f l = Ok l'.
Proof.
  induction 1 as [|x y l l' Hxy _ IH]; simpl; [reflexivity|].
  rewrite Hxy. simpl. rewrite IH. reflexivity.
Qed.

Lemma comprehension_inv {A B} (f : A → result B) l l' :
  comprehension f l = Ok l' → Forall2 (λ x y, f x = Ok y) l l'.
Proof.
  revert l'. induction l as [|x l IH]; simpl; intros l' H.
  - injection H as <-. constructor.
  - destruct (f x) as [y|e] eqn:Hx; simpl in H; [|discriminate].
    destruct (comprehension f l) as [ys|e] eqn:Hl; simpl in H; [|discriminate].
    injection H as <-. constructor; [assumption|]. apply IH. reflexivity.
Qed.

Lemma comprehension_raise {A B} (f : A → result B) pre x post ys e :
  Forall2 (λ x y, f x = Ok y) pre ys → f x = Raise e →
  comprehension f (pre ++ x :: post) = Raise e.
Proof.
  induction 1 as [|a b l l' Hab _ IH]; simpl; intros Hx.
  - rewrite Hx. reflexivity.
  - rewrite Hab. simpl. rewrite (IH Hx). reflexivity.
Qed.

Lemma product_ids_of_items items product_ids :
  Forall2 line_item items product_ids →
  comprehension product_id_of (VDict <$> items) = Ok product_ids.
Proof.
  intros H. apply comprehension_ok. apply Forall2_fmap_l.
  eapply Forall2_impl; [exact H|]. intros item pid. apply product_id_of_line_item.
Qed.

Lemma get_product_ids_from_order_ok order items product_ids :
  order_of order items product_ids →
  _get_product_ids_from_order (VDict order) = Ok product_ids.
Proof.
  intros [Hd Hitems]. unfold _get_product_ids_from_order. simpl.
  rewrite Hd. simpl. apply product_ids_of_items, Hitems.
Qed.

Lemma extend_product_ids_ok orders (contents : list (list (gmap string value) * list string)) acc :
  Forall2 (λ order c, order_of order c.1 c.2) orders contents →
  extend_product_ids (VDict <$> orders) acc = Ok (acc ++ concat (snd <$> contents)).
Proof.
  intros H. revert acc.
  induction H as [|order c orders contents Hc _ IH]; intros acc; simpl.
  - rewrite app_nil_r. reflexivity.
  - rewrite (get_product_ids_from_order_ok _ _ _ Hc). csimpl.
    rewrite IH, <- app_assoc. reflexivity.
Qed.

Lemma product_id_set_from_ok products ids acc :
  Forall2 product products ids →
  product_id_set_from (VDict <$> products) acc = Ok (list_to_set ids ∪ acc).
Proof.
  intros H. revert acc.
  induction H as [|prod id products ids Hp _ IH]; intros acc; simpl.
  - f_equal. set_solver.
  - unfold product in Hp. rewrite Hp. csimpl. rewrite IH. f_equal. set_solver.
Qed.

Lemma product_map_from_ok products ids acc :
  Forall2 product products ids →
  ∃ product_map,
    product_map_from (VDict <$> products) acc = Ok product_map ∧
    dom product_map = list_to_set ids ∪ dom acc.
Proof.
  intros H. revert acc.
  induction H as [|prod id products ids Hp _ IH]; intros acc; simpl.
  - exists acc. split; [reflexivity|set_solver].
  - unfold product in Hp. rewrite Hp. csimpl.
    destruct (IH (<[id := VDict prod]> acc)) as (pm & -> & Hdom).
    exists pm. split; [reflexivity|]. rewrite Hdom, dom_insert_L. set_solver.
Qed.

Lemma fill_item_ok image_root product_map item product_id prod :
  line_item item product_id → product_map !! product_id = Some prod →
  fill_item image_root product_map (VDict item)
  = Ok (VDict (filled image_root product_id prod item)).
Proof.
  intros Hitem Hprod. unfold fill_item.
  rewrite (product_id_of_line_item _ _ Hitem). simpl. rewrite Hprod. reflexivity.
Qed.

Lemma fill_item_missing image_root product_map item product_id :
  line_item item product_id → product_map !! product_id = None →
  fill_item image_root product_map (VDict item) = Raise (KeyError product_id).
Proof.
  intros Hitem Hprod. unfold fill_item.
  rewrite (product_id_of_line_item _ _ Hitem). simpl. rewrite Hprod. reflexivity.
Qed.

Lemma fill_items_ok image_root product_map items product_ids :
  Forall2 line_item items product_ids →
  Forall (λ id, is_Some (product_map !! id)) product_ids →
  ∃ items',
    comprehension (fill_item image_root product_map) (VDict <$> items)
    = Ok (VDict <$> items') ∧
    Forall2 (item_filled image_root product_map) items items'.
Proof.
  induction 1 as [|item pid items pids Hitem _ IH]; intros Hall.
  - exists []. split; [reflexivity|constructor].
  - apply Forall_cons in Hall as [[prod Hprod] Hall].
    destruct (IH Hall) as (items' & Hrun & Hfilled).
    exists (filled image_root pid prod item :: items'). split.
    + csimpl. rewrite (fill_item_ok _ _ _ _ _ Hitem Hprod). csimpl.
      rewrite Hrun. reflexivity.
    + constructor; [|assumption]. exists pid, prod. auto.
Qed.

Lemma fill_items_missing image_root product_map items pre product_id post :
  Forall2 line_item items (pre ++ product_id :: post) →
  Forall (λ id, is_Some (product_map !! id)) pre →
  product_map !! product_id = None →
  comprehension (fill_item image_root product_map) (VDict <$> items)
  = Raise (KeyError product_id).
Proof.
  intros Hitems Hpre Hmiss.
  apply Forall2_app_inv_r in Hitems as (items1 & items2 & H1 & H2 & ->).
  apply Forall2_cons_inv_r in H2 as (item & items3 & Hitem & _ & ->).
  destruct (fill_items_ok image_root product_map _ _ H1 Hpre) as (ys & Hys & _).
  rewrite fmap_app, fmap_cons.
  eapply comprehension_raise.
  - apply comprehension_inv, Hys.
  - apply fill_item_missing; assumption.
Qed.

Lemma fill_order_ok image_root product_map order items product_ids :
  order_of order items product_ids →
  Forall (λ id, is_Some (product_map !! id)) product_ids →
  ∃ items',
    _fill_order_details_with_product image_root (VDict order) product_map
    = Ok (VDict (<["order_details" := VList (VDict <$> items')]> order)) ∧
    Forall2 (item_filled image_root product_map) items items'.
Proof.
  intros [Hd Hitems] Hall.
  destruct (fill_items_ok image_root product_map _ _ Hitems Hall)
    as (items' & Hrun & Hfilled).
  exists items'. split; [|assumption].
  unfold _fill_order_details_with_product. simpl. rewrite Hd. csimpl.
  rewrite Hrun. reflexivity.
Qed.

Lemma fill_order_missing image_root product_map order items pre product_id post :
  order_of order items (pre ++ product_id :: post) →
  Forall (λ id, is_Some (product_map !! id)) pre →
  product_map !! product_id = None →
  _fill_order_details_with_product image_root (VDict order) product_map
  = Raise (KeyError product_id).
Proof.
  intros [Hd Hitems] Hpre Hmiss.
  unfold _fill_order_details_with_product. simpl. rewrite Hd. csimpl.
  rewrite (fill_items_missing _ _ _ _ _ _ Hitems Hpre Hmiss). reflexivity.
Qed.

Lemma check_product_ids_ok valid items product_ids :
  Forall2 line_item items product_ids →
  Forall (λ id, id ∈ valid) product_ids →
  check_product_ids valid (VDict <$> items) = Ok ().
Proof.
  induction 1 as [|item pid items pids Hitem _ IH]; intros Hall; [reflexivity|].
  apply Forall_cons in Hall as [Hin Hall]. csimpl.
  rewrite (product_id_of_line_item _ _ Hitem). simpl.
  rewrite bool_decide_eq_false_2; [|intros Hn; exact (Hn Hin)].
  apply IH, Hall.
Qed.

Lemma check_product_ids_missing valid items pre product_id post :
  Forall2 line_item items (pre ++ product_id :: post) →
  Forall (λ id, id ∈ valid) pre →
  product_id ∉ valid →
  check_product_ids valid (VDict <$> items)
  = Raise (ProductNotFound (product_not_found_message product_id)).
Proof.
  revert items. induction pre as [|p pre IH]; intros items Hitems Hpre Hmiss.
  - apply Forall2_cons_inv_r in Hitems as (item & rest & Hitem & _ & ->). csimpl.
    rewrite (product_id_of_line_item _ _ Hitem). simpl.
    rewrite bool_decide_eq_true_2; [reflexivity|assumption].
  - apply Forall2_cons_inv_r in Hitems as (item & rest & Hitem & Hrest & ->).
    apply Forall_cons in Hpre as [Hin Hpre]. csimpl.
    rewrite (product_id_of_line_item _ _ Hitem). simpl.
    rewrite bool_decide_eq_false_2; [|intros Hn; exact (Hn Hin)].
    apply IH; assumption.
Qed.

Lemma product_map_of_ok products ids :
  Forall2 product products ids →
  ∃ product_map,
    product_map_of (VList (VDict <$> products)) = Ok product_map ∧
    dom product_map = list_to_set ids.
Proof.
  intros H. destruct (product_map_from_ok _ _ ∅ H) as (pm & Hrun & Hdom).
  exists pm. split; [exact Hrun|]. rewrite Hdom. set_solver.
Qed.

Lemma product_id_set_of_ok products ids :
  Forall2 product products ids →
  product_id_set_of (VList (VDict <$> products)) = Ok (list_to_set ids).
Proof.
  intros H. unfold product_id_set_of. simpl.
  rewrite (product_id_set_from_ok _ _ ∅ H). f_equal. set_solver.
Qed.

Lemma covered_by_dom (product_map : gmap string value) (ids product_ids : list string) :
  dom product_map = list_to_set ids →
  Forall (λ id, id ∈ ids) product_ids →
  Forall (λ id, is_Some (product_map !! id)) product_ids.
Proof.
  intros Hdom Hall. eapply Forall_impl; [exact Hall|]. intros id Hin. simpl.
  apply elem_of_dom. rewrite Hdom. set_solver.
Qed.

Lemma missing_by_dom (product_map : gmap string value) (ids : list string) id :
  dom product_map = list_to_set ids → id ∉ ids → product_map !! id = None.
Proof.
  intros Hdom Hid. apply not_elem_of_dom. rewrite Hdom. set_solver.
Qed.

(** A list with an element violating a decidable property has a first one. *)
Lemma first_violation {A} (P : A → Prop) `{∀ x, Decision (P x)} (l : list A) :
  Exists (λ x, ¬ P x) l →
  ∃ pre x post, l = pre ++ x :: post ∧ Forall P pre ∧ ¬ P x.
Proof.
  induction l as [|a l IH]; intros Hex.
  - inversion Hex.
  - destruct (decide (P a)) as [Ha|Ha].
    + apply Exists_cons in Hex as [Hna|Hex]; [contradiction|].
      destruct (IH Hex) as (pre & x & post & -> & Hpre & Hx).
      exists (a :: pre), x, post. split; [reflexivity|]. split; [|assumption].
      constructor; assumption.
    + exists [], a, l. split; [reflexivity|]. split; [constructor|assumption].
Qed.

Section FillAll.

Variable image_root : string.
Variable product_map : gmap string value.

Lemma fill_and_update_ok order items product_ids :
  order_of order items product_ids →
  Forall (λ id, is_Some (product_map !! id)) product_ids →
  ∃ order',
    fill_and_update image_root product_map (VDict order) = Ok (VDict order') ∧
    order_filled image_root product_map order order'.
Proof.
  intros Horder Hall.
  destruct (fill_order_ok image_root product_map _ _ _ Horder Hall)
    as (items' & Hrun & Hfilled).
  exists (<["order_details" := VList (VDict <$> items')]> order). split.
  - unfold fill_and_update. rewrite Hrun. simpl.
    do 2 f_equal. apply map_union_idemp.
  - exists items, items'. split; [apply Horder|]. split; [reflexivity|assumption].
Qed.

Lemma fill_all_ok orders
    (contents : list (list (gmap string value) * list string)) :
  Forall2 (λ order c, order_of order c.1 c.2) orders contents →
  Forall (λ id, is_Some (product_map !! id)) (referenced contents) →
  ∃ orders',
    comprehension (fill_and_update image_root product_map) (VDict <$> orders)
    = Ok (VDict <$> orders') ∧
    Forall2 (order_filled image_root product_map) orders orders'.
Proof.
  induction 1 as [|order c orders contents Hc _ IH]; intros Hall.
  - exists []. split; [reflexivity|constructor].
  - unfold referenced in Hall. rewrite fmap_cons in Hall. simpl in Hall.
    apply Forall_app in Hall as [Hhere Hrest].
    destruct (fill_and_update_ok _ _ _ Hc Hhere) as (order' & Hrun & Hfilled).
    destruct (IH Hrest) as (orders' & Hruns & Hfilleds).
    exists (order' :: orders'). split.
    + csimpl. rewrite Hrun. csimpl. rewrite Hruns. reflexivity.
    + constructor; assumption.
Qed.

End FillAll.

Lemma lookups_app t t' : lookups (t ++ t') = lookups t ++ lookups t'.
Proof. apply omap_app. Qed.

Lemma creations_app t t' : creations (t ++ t') = creations t ++ creations t'.
Proof. apply omap_app. Qed.

Lemma referenced_nil contents :
  referenced contents = [] → Forall (λ c, c.2 = []) contents.
Proof.
  unfold referenced. induction contents as [|c contents IH]; csimpl; intros H.
  - constructor.
  - apply app_eq_nil in H as [Hc H]. constructor; [exact Hc|apply IH, H].
Qed.

Lemma order_filled_no_items image_root product_map order order' items :
  order_of order items [] →
  order_filled image_root product_map order order' →
  order' = order.
Proof.
  intros [Hd Hitems] (items0 & items' & Hd0 & -> & Hfilled).
  apply Forall2_nil_inv_r in Hitems. subst items.
  rewrite Hd in Hd0. injection Hd0 as Hnil. symmetry in Hnil.
  apply fmap_nil_inv in Hnil. subst items0.
  apply Forall2_nil_inv_l in Hfilled. subst items'.
  apply insert_id. exact Hd.
Qed.

(** ** Enrichment of line items *)

Lemma filled_line_item image_root product_id prod item :
  line_item item product_id →
  line_item (filled image_root product_id prod item) product_id.
Proof.
  unfold line_item, filled. intros H.
  rewrite !lookup_insert_ne by discriminate. exact H.
Qed.

Lemma filled_product image_root product_id prod item :
  filled image_root product_id prod item !! "product" = Some prod.
Proof.
  unfold filled. rewrite lookup_insert_ne by discriminate.
  apply lookup_insert_eq.
Qed.

Lemma filled_image image_root product_id prod item :
  filled image_root product_id prod item !! "image"
  = Some (VStr (image_url image_root product_id)).
Proof. unfold filled. apply lookup_insert_eq. Qed.

Lemma filled_same_except image_root product_id prod item :
  same_except ["product"; "image"] item (filled image_root product_id prod item).
Proof.
  intros k Hk. unfold filled.
  rewrite !lookup_insert_ne; [reflexivity| |]; intros <-; apply Hk; set_solver.
Qed.

Lemma filled_twice image_root product_id prod item :
  filled image_root product_id prod (filled image_root product_id prod item)
  = filled image_root product_id prod item.
Proof.
  unfold filled.
  rewrite (insert_insert_ne _ "product" "image") by discriminate.
  rewrite !insert_insert_eq. reflexivity.
Qed.

Lemma item_filled_preserved image_root product_map item item' :
  item_filled image_root product_map item item' → item_preserved item item'.
Proof.
  intros (product_id & prod & _ & _ & ->). split; [apply filled_same_except|].
  split; [rewrite filled_product|rewrite filled_image]; eauto.
Qed.

Lemma order_filled_preserved image_root product_map order order' :
  order_filled image_root product_map order order' → order_preserved order order'.
Proof.
  intros (items & items' & Hd & -> & Hfilled). split.
  - intros k Hk. apply lookup_insert_ne. intros <-. apply Hk. set_solver.
  - exists items, items'. split; [exact Hd|]. split; [apply lookup_insert_eq|].
    eapply Forall2_impl; [exact Hfilled|]. apply item_filled_preserved.
Qed.

(** The enriched items, seen from the product ids of the line items. *)
Lemma items_filled_by_id image_root product_map items items' product_ids :
  Forall2 line_item items product_ids →
  Forall2 (item_filled image_root product_map) items items' →
  Forall2 (λ item' product_id, ∃ item prod,
             line_item item product_id ∧
             product_map !! product_id = Some prod ∧
             item' = filled image_root product_id prod item)
          items' product_ids.
Proof.
  intros Hitems. revert items'.
  induction Hitems as [|item pid items pids Hitem _ IH]; intros items' Hfilled.
  - apply Forall2_nil_inv_l in Hfilled. subst. constructor.
  - apply Forall2_cons_inv_l in Hfilled
      as (item' & rest & (pid' & prod & Hitem' & Hprod & ->) & Hrest & ->).
    unfold line_item in Hitem, Hitem'. rewrite Hitem in Hitem'.
    injection Hitem' as <-.
    constructor; [|apply IH, Hrest]. exists item, prod. auto.
Qed.

Lemma fill_item_inv image_root product_map item item' :
  fill_item image_root product_map item = Ok item' →
  ∃ d, item = VDict d ∧ ∃ d', item' = VDict d' ∧
    item_filled image_root product_map d d'.
Proof.
  unfold fill_item, product_id_of. destruct item as [| | | | |d]; try discriminate.
  simpl. destruct (d !! "product_id") as [[| | |pid| |]|] eqn:Hpid;
    try discriminate.
  simpl. destruct (product_map !! pid) as [prod|] eqn:Hprod; [|discriminate].
  simpl. intros [= <-].
  exists d. split; [reflexivity|]. eexists. split; [reflexivity|].
  exists pid, prod. auto.
Qed.

Lemma fill_item_idempotent image_root product_map item item' :
  fill_item image_root product_map item = Ok item' →
  fill_item image_root product_map item' = Ok item'.
Proof.
  intros H.
  apply fill_item_inv in H
    as (d & -> & d' & -> & pid & prod & Hpid & Hprod & ->).
  rewrite (fill_item_ok _ _ _ _ _ (filled_line_item _ _ _ _ Hpid) Hprod).
  by rewrite filled_twice.
Qed.

Lemma comprehension_idempotent {A} (f : A → result A) l l' :
  (∀ x y, f x = Ok y → f y = Ok y) →
  comprehension f l = Ok l' → comprehension f l' = Ok l'.
Proof.
  intros Hf Hrun. apply comprehension_ok.
  apply comprehension_inv in Hrun.
  induction Hrun as [|x y l l' Hxy _ IH]; constructor; eauto.
Qed.

Lemma fill_order_idempotent image_root product_map order order' :
  _fill_order_details_with_product image_root order product_map = Ok order' →
  _fill_order_details_with_product image_root order' product_map = Ok order'.
Proof.
  unfold _fill_order_details_with_product.
  destruct order as [| | | | |d]; try discriminate. simpl.
  destruct (d !! "order_details") as [[| | | |items|]|]; try discriminate.
  simpl.
  destruct (comprehension _ items) as [items'|e] eqn:Hrun; [|discriminate].
  simpl. intros [= <-]. simpl. rewrite lookup_insert_eq. simpl.
  rewrite (comprehension_idempotent _ _ _
             (fill_item_idempotent image_root product_map) Hrun).
  simpl. by rewrite insert_insert_eq.
Qed.

Lemma append_assoc (s1 s2 s3 : string) :
  (s1 +:+ s2) +:+ s3 = s1 +:+ s2 +:+ s3.
Proof.
  induction s1 as [|a s1 IH]; [reflexivity|].
  change (String a ((s1 +:+ s2) +:+ s3) = String a (s1 +:+ s2 +:+ s3)).
  f_equal. exact IH.
Qed.

(** C6: in [_fill_order_details_with_product], the first line item whose
    product id is not a key of the product map makes the whole call raise
    [KeyError] for that id, which is not among the exceptions the
    entrypoints that enrich orders expect ([OrderNotFound] for one order,
    none for the list), hence a server fault; when every referenced id is a
    key the call returns, and every line item carries the product the map
    holds for its id. *)
Theorem missing_product_fails_hard image_root product_map order items
    product_ids :
  order_of order items product_ids →
  (∀ pre product_id post,
     product_ids = pre ++ product_id :: post →
     Forall (λ id, is_Some (product_map !! id)) pre →
     product_map !! product_id = None →
     _fill_order_details_with_product image_root (VDict order) product_map
     = Raise (KeyError product_id) ∧
     isinstance (KeyError product_id) get_order_expected_exceptions = false ∧
     isinstance (KeyError product_id) list_orders_expected_exceptions = false) ∧
  (Forall (λ id, is_Some (product_map !! id)) product_ids →
   ∃ items',
     _fill_order_details_with_product image_root (VDict order) product_map
     = Ok (VDict (<["order_details" := VList (VDict <$> items')]> order)) ∧
     Forall2 (λ item' product_id, ∃ prod,
                product_map !! product_id = Some prod ∧
                item' !! "product" = Some prod)
             items' product_ids).
Proof.
  intros Horder. split.
  - intros pre product_id post -> Hpre Hmiss. split; [|split; reflexivity].
    eapply fill_order_missing; eassumption.
  - intros Hall.
    destruct (fill_order_ok image_root product_map _ _ _ Horder Hall)
      as (items' & Hrun & Hfilled).
    exists items'. split; [exact Hrun|].
    eapply Forall2_impl;
      [exact (items_filled_by_id _ _ _ _ _ (proj2 Horder) Hfilled)|].
    intros item' pid (item & prod & _ & Hprod & ->).
    exists prod. split; [exact Hprod|apply filled_product].
Qed.

(** C7, as the code has it: the image of an enriched line item is the
    image root, a slash, the line item's product id and [.jpg], in that
    order; so it ends with the product id followed by [.jpg]. *)
Theorem image_is_root_slash_id_jpg image_root product_map order items
    product_ids :
  order_of order items product_ids →
  Forall (λ id, is_Some (product_map !! id)) product_ids →
  ∃ items',
    _fill_order_details_with_product image_root (VDict order) product_map
    = Ok (VDict (<["order_details" := VList (VDict <$> items')]> order)) ∧
    Forall2 (λ item' product_id,
               item' !! "image"
               = Some (VStr (image_root +:+ "/" +:+ product_id +:+ ".jpg")) ∧
               ∃ prefix,
                 image_root +:+ "/" +:+ product_id +:+ ".jpg"
                 = prefix +:+ product_id +:+ ".jpg")
            items' product_ids.
Proof.
  intros Horder Hall.
  destruct (fill_order_ok image_root product_map _ _ _ Horder Hall)
    as (items' & Hrun & Hfilled).
  exists items'. split; [exact Hrun|].
  eapply Forall2_impl;
    [exact (items_filled_by_id _ _ _ _ _ (proj2 Horder) Hfilled)|].
  intros item' pid (item & prod & _ & _ & ->). split; [apply filled_image|].
  exists (image_root +:+ "/"). by rewrite append_assoc.
Qed.

(** C9: enriching an order whose product ids are all keys of the product
    map succeeds, and enriching the result again with the same map and
    image root gives the same order. *)
Theorem enrichment_is_idempotent image_root product_map order items product_ids :
  order_of order items product_ids →
  Forall (λ id, is_Some (product_map !! id)) product_ids →
  ∃ order',
    _fill_order_details_with_product image_root (VDict order) product_map
    = Ok order' ∧
    _fill_order_details_with_product image_root order' product_map = Ok order'.
Proof.
  intros Horder Hall.
  destruct (fill_order_ok image_root product_map _ _ _ Horder Hall)
    as (items' & Hrun & _).
  eexists. split; [exact Hrun|]. apply fill_order_idempotent with (1 := Hrun).
Qed.

Lemma fill_order_preserves image_root product_map order items product_ids :
  order_of order items product_ids →
  Forall (λ id, is_Some (product_map !! id)) product_ids →
  ∃ order',
    _fill_order_details_with_product image_root (VDict order) product_map
    = Ok (VDict order') ∧
    order_preserved order order'.
Proof.
  intros Horder Hall.
  destruct (fill_order_ok image_root product_map _ _ _ Horder Hall)
    as (items' & Hrun & Hfilled).
  eexists. split; [exact Hrun|].
  apply (order_filled_preserved image_root product_map).
  exists items, items'. split; [apply Horder|]. split; [reflexivity|assumption].
Qed.

(** ** Runs of the service against a backend *)

Section Runs.

Context {backend : Type}.
Variable rpc : call → backend → result value * backend.
Variable PRODUCT_IMAGE_ROOT : string.
Variable json_dumps : value → string.
Variable json_loads : string → string + value.
Variable ProductSchema_dumps : value → string.
Variable ProductSchema_load : value → value + value.
Variable GetOrderSchema_dumps : value → string.
Variable CreateOrderSchema_load : value → value + value.
Variable CreateOrderSchema_dump : value → value.

Implicit Types (w : @world backend) (b : backend).
Implicit Types (order prod : gmap string value).
Implicit Types (orders items products : list (gmap string value)).
Implicit Types (ids product_ids : list string).
Implicit Types (contents : list (list (gmap string value) * list string)).

Lemma get_product_ids_from_orders_ok orders contents :
  Forall2 (λ order c, order_of order c.1 c.2) orders contents →
  _get_product_ids_from_orders (VList (VDict <$> orders))
  = Ok (referenced contents).
Proof.
  intros H. unfold _get_product_ids_from_orders. simpl.
  rewrite (extend_product_ids_ok _ _ [] H). reflexivity.
Qed.

Lemma get_all_orders_trace w orders contents b1 :
  rpc orders_list_orders (remote w) = (Ok (VList (VDict <$> orders)), b1) →
  Forall2 (λ order c, order_of order c.1 c.2) orders contents →
  trace (_get_all_orders rpc PRODUCT_IMAGE_ROOT w).2
  = trace w ++ [orders_list_orders; products_list (referenced contents)].
Proof.
  intros Hlist Horders.
  unfold _get_all_orders, _list_products, bind, invoke, lift, ret.
  rewrite Hlist. cbn [remote trace].
  rewrite (get_product_ids_from_orders_ok _ _ Horders).
  destruct (rpc (products_list (referenced contents)) b1) as [[products|e] b2];
    simpl; [|by rewrite <- app_assoc].
  destruct (product_map_of products) as [pm|e]; simpl; [|by rewrite <- app_assoc].
  destruct (comprehension _ _) as [os|e]; simpl; by rewrite <- app_assoc.
Qed.

Lemma get_all_orders_run w orders contents b1 products ids b2 :
  rpc orders_list_orders (remote w) = (Ok (VList (VDict <$> orders)), b1) →
  Forall2 (λ order c, order_of order c.1 c.2) orders contents →
  rpc (products_list (referenced contents)) b1
  = (Ok (VList (VDict <$> products)), b2) →
  Forall2 product products ids →
  Forall (λ id, id ∈ ids) (referenced contents) →
  ∃ product_map orders',
    product_map_of (VList (VDict <$> products)) = Ok product_map ∧
    _get_all_orders rpc PRODUCT_IMAGE_ROOT w
    = (Ok (VList (VDict <$> orders')),
       mkWorld b2 (trace w ++ [orders_list_orders;
                               products_list (referenced contents)])) ∧
    Forall2 (order_filled PRODUCT_IMAGE_ROOT product_map) orders orders'.
Proof.
  intros Hlist Horders Hproducts Hids Hall.
  destruct (product_map_of_ok _ _ Hids) as (pm & Hpm & Hdom).
  destruct (fill_all_ok PRODUCT_IMAGE_ROOT pm _ _ Horders
              (covered_by_dom _ _ _ Hdom Hall)) as (orders' & Hrun & Hfilled).
  exists pm, orders'. split; [exact Hpm|]. split; [|exact Hfilled].
  unfold _get_all_orders, _list_products, bind, invoke, lift, ret.
  rewrite Hlist. cbn [remote trace].
  rewrite (get_product_ids_from_orders_ok _ _ Horders).
  rewrite Hproducts, Hpm. cbn [iter mbind result_bind].
  rewrite Hrun, <- app_assoc. reflexivity.
Qed.

Lemma get_order_run w order_id order items product_ids b1 products ids b2 :
  rpc (orders_get_order order_id) (remote w) = (Ok (VDict order), b1) →
  order_of order items product_ids →
  rpc (products_list product_ids) b1 = (Ok (VList (VDict <$> products)), b2) →
  Forall2 product products ids →
  Forall (λ id, id ∈ ids) product_ids →
  ∃ product_map items',
    product_map_of (VList (VDict <$> products)) = Ok product_map ∧
    _get_order rpc PRODUCT_IMAGE_ROOT order_id w
    = (Ok (VDict (<["order_details" := VList (VDict <$> items')]> order)),
       mkWorld b2 (trace w ++ [orders_get_order order_id;
                               products_list product_ids])) ∧
    Forall2 (item_filled PRODUCT_IMAGE_ROOT product_map) items items'.
Proof.
  intros Hget Horder Hproducts Hids Hall.
  destruct (product_map_of_ok _ _ Hids) as (pm & Hpm & Hdom).
  destruct (fill_order_ok PRODUCT_IMAGE_ROOT pm _ _ _ Horder
              (covered_by_dom _ _ _ Hdom Hall)) as (items' & Hrun & Hfilled).
  exists pm, items'. split; [exact Hpm|]. split; [|exact Hfilled].
  unfold _get_order, _list_products, bind, invoke, lift.
  rewrite Hget. cbn [remote trace].
  rewrite (get_product_ids_from_order_ok _ _ _ Horder).
  rewrite Hproducts, Hpm, Hrun, <- app_assoc. reflexivity.
Qed.

Lemma get_order_missing w order_id order items pre product_id post b1
    products ids b2 :
  rpc (orders_get_order order_id) (remote w) = (Ok (VDict order), b1) →
  order_of order items (pre ++ product_id :: post) →
  rpc (products_list (pre ++ product_id :: post)) b1
  = (Ok (VList (VDict <$> products)), b2) →
  Forall2 product products ids →
  Forall (λ id, id ∈ ids) pre →
  product_id ∉ ids →
  _get_order rpc PRODUCT_IMAGE_ROOT order_id w
  = (Raise (KeyError product_id),
     mkWorld b2 (trace w ++ [orders_get_order order_id;
                             products_list (pre ++ product_id :: post)])).
Proof.
  intros Hget Horder Hproducts Hids Hpre Hmiss.
  destruct (product_map_of_ok _ _ Hids) as (pm & Hpm & Hdom).
  unfold _get_order, _list_products, bind, invoke, lift.
  rewrite Hget. cbn [remote trace].
  rewrite (get_product_ids_from_order_ok _ _ _ Horder).
  rewrite Hproducts, Hpm.
  rewrite (fill_order_missing PRODUCT_IMAGE_ROOT pm _ _ _ _ _ Horder
             (covered_by_dom _ _ _ Hdom Hpre) (missing_by_dom _ _ _ Hdom Hmiss)).
  rewrite <- app_assoc. reflexivity.
Qed.

(** A missing product during enrichment reaches the caller of
    [GET /orders/<id>] as a server fault. *)
Lemma GET_order_missing_product w order_id order items pre product_id post b1
    products ids b2 :
  rpc (orders_get_order order_id) (remote w) = (Ok (VDict order), b1) →
  order_of order items (pre ++ product_id :: post) →
  rpc (products_list (pre ++ product_id :: post)) b1
  = (Ok (VList (VDict <$> products)), b2) →
  Forall2 product products ids →
  Forall (λ id, id ∈ ids) pre →
  product_id ∉ ids →
  (GET_order rpc PRODUCT_IMAGE_ROOT GetOrderSchema_dumps order_id w).1
  = ServerFault (KeyError product_id).
Proof.
  intros Hget Horder Hproducts Hids Hpre Hmiss.
  unfold GET_order, http, get_order, bind.
  rewrite (get_order_missing _ _ _ _ _ _ _ _ _ _ _
             Hget Horder Hproducts Hids Hpre Hmiss).
  reflexivity.
Qed.

Lemma create_order_accepts w order items product_ids products ids b1 :
  order_of order items product_ids →
  rpc (products_list product_ids) (remote w)
  = (Ok (VList (VDict <$> products)), b1) →
  Forall2 product products ids →
  Forall (λ id, id ∈ ids) product_ids →
  _create_order rpc CreateOrderSchema_dump (VDict order) w
  = submit_order rpc CreateOrderSchema_dump (VDict order)
      (mkWorld b1 (trace w ++ [products_list product_ids])).
Proof.
  intros Horder Hproducts Hids Hall.
  unfold _create_order, submit_order, _list_products, bind, invoke, lift.
  rewrite (get_product_ids_from_order_ok _ _ _ Horder).
  rewrite Hproducts, (product_id_set_of_ok _ _ Hids).
  generalize (getitem (CreateOrderSchema_dump (VDict order)) "order_details").
  intros submitted.
  destruct Horder as [Hd Hitems]. simpl. rewrite Hd. csimpl.
  rewrite (check_product_ids_ok _ _ _ Hitems); [|].
  - reflexivity.
  - eapply Forall_impl; [exact Hall|]. intros id Hin. simpl. set_solver.
Qed.

Lemma create_order_rejects w order items pre product_id post products ids b1 :
  order_of order items (pre ++ product_id :: post) →
  rpc (products_list (pre ++ product_id :: post)) (remote w)
  = (Ok (VList (VDict <$> products)), b1) →
  Forall2 product products ids →
  Forall (λ id, id ∈ ids) pre →
  product_id ∉ ids →
  _create_order rpc CreateOrderSchema_dump (VDict order) w
  = (Raise (ProductNotFound (product_not_found_message product_id)),
     mkWorld b1 (trace w ++ [products_list (pre ++ product_id :: post)])).
Proof.
  intros Horder Hproducts Hids Hpre Hmiss.
  unfold _create_order, _list_products, bind, invoke, lift.
  rewrite (get_product_ids_from_order_ok _ _ _ Horder).
  rewrite Hproducts, (product_id_set_of_ok _ _ Hids).
  destruct Horder as [Hd Hitems]. simpl. rewrite Hd. csimpl.
  rewrite (check_product_ids_missing _ _ _ _ _ Hitems); [reflexivity| |].
  - eapply Forall_impl; [exact Hpre|]. intros id Hin. simpl. set_solver.
  - set_solver.
Qed.

(** ** Validation of an order payload *)

(** C1: when the catalog lookup answers with the products [products],
    [_create_order] goes on to submit the order if every line item's
    product id is among the returned ids, and otherwise raises
    [ProductNotFound] with the message naming the product id of the first
    line item, in line-item order, whose id was not returned. *)
Theorem create_order_validation w order items product_ids products ids b1 :
  order_of order items product_ids →
  rpc (products_list product_ids) (remote w)
  = (Ok (VList (VDict <$> products)), b1) →
  Forall2 product products ids →
  (Forall (λ id, id ∈ ids) product_ids →
   _create_order rpc CreateOrderSchema_dump (VDict order) w
   = submit_order rpc CreateOrderSchema_dump (VDict order)
       (mkWorld b1 (trace w ++ [products_list product_ids]))) ∧
  (∀ pre product_id post,
     product_ids = pre ++ product_id :: post →
     Forall (λ id, id ∈ ids) pre →
     product_id ∉ ids →
     _create_order rpc CreateOrderSchema_dump (VDict order) w
     = (Raise (ProductNotFound ("Product Id " +:+ product_id)),
        mkWorld b1 (trace w ++ [products_list product_ids]))).
Proof.
  intros Horder Hproducts Hids. split.
  - intros Hall. eapply create_order_accepts; eassumption.
  - intros pre product_id post -> Hpre Hmiss.
    eapply create_order_rejects; eassumption.
Qed.

(** ** The batched catalog lookup *)

Lemma create_order_lookups w order items product_ids :
  order_of order items product_ids →
  lookups (trace (_create_order rpc CreateOrderSchema_dump (VDict order) w).2)
  = lookups (trace w) ++ [product_ids].
Proof.
  intros Horder.
  unfold _create_order, _list_products, bind, invoke, lift.
  rewrite (get_product_ids_from_order_ok _ _ _ Horder).
  generalize (getitem (CreateOrderSchema_dump (VDict order)) "order_details").
  intros submitted.
  destruct (rpc (products_list product_ids) (remote w)) as [[products|e] b1];
    cbn [snd trace remote]; [|by rewrite lookups_app].
  destruct (product_id_set_of products) as [valid|e];
    cbn [snd trace]; [|by rewrite lookups_app].
  destruct (_ ← _; check_product_ids valid _) as [[]|e];
    cbn [snd trace]; [|by rewrite lookups_app].
  destruct submitted as [details|e]; cbn [snd trace remote];
    [|by rewrite lookups_app].
  destruct (rpc (orders_create_order details) b1) as [reply b2].
  cbn [snd trace]. rewrite !lookups_app. simpl. by rewrite app_nil_r.
Qed.

Lemma get_order_lookups w order_id order items product_ids b1 :
  rpc (orders_get_order order_id) (remote w) = (Ok (VDict order), b1) →
  order_of order items product_ids →
  lookups (trace (_get_order rpc PRODUCT_IMAGE_ROOT order_id w).2)
  = lookups (trace w) ++ [product_ids].
Proof.
  intros Hget Horder.
  unfold _get_order, _list_products, bind, invoke, lift.
  rewrite Hget. cbn [remote trace].
  rewrite (get_product_ids_from_order_ok _ _ _ Horder).
  destruct (rpc (products_list product_ids) b1) as [[products|e] b2];
    cbn [snd trace]; [|by rewrite <- app_assoc, lookups_app].
  destruct (product_map_of products) as [pm|e];
    cbn [snd trace]; by rewrite <- app_assoc, lookups_app.
Qed.

(** C2, as the code has it: the argument of the one catalog lookup made
    by [_get_all_orders], by [_get_order] and by [_create_order] is the
    list of the product ids of all line items, in line-item order, with
    one entry per line item (an id referenced by several line items or
    orders is repeated). *)
Theorem lookup_argument_lists_every_line_item :
  (∀ w orders contents b1,
     rpc orders_list_orders (remote w) = (Ok (VList (VDict <$> orders)), b1) →
     Forall2 (λ order c, order_of order c.1 c.2) orders contents →
     lookups (trace (_get_all_orders rpc PRODUCT_IMAGE_ROOT w).2)
     = lookups (trace w) ++ [referenced contents]) ∧
  (∀ w order_id order items product_ids b1,
     rpc (orders_get_order order_id) (remote w) = (Ok (VDict order), b1) →
     order_of order items product_ids →
     lookups (trace (_get_order rpc PRODUCT_IMAGE_ROOT order_id w).2)
     = lookups (trace w) ++ [product_ids]) ∧
  (∀ w order items product_ids,
     order_of order items product_ids →
     lookups (trace (_create_order rpc CreateOrderSchema_dump (VDict order) w).2)
     = lookups (trace w) ++ [product_ids]).
Proof.
  split; [|split].
  - intros w orders contents b1 Hlist Horders.
    rewrite (get_all_orders_trace _ _ _ _ Hlist Horders), lookups_app.
    reflexivity.
  - intros w order_id order items product_ids b1. apply get_order_lookups.
  - intros w order items product_ids. apply create_order_lookups.
Qed.

(** C3, as the code has it: when the orders reference no product id at
    all, [_get_all_orders] still makes its one catalog lookup, with an
    empty list of ids, and, when the lookup answers with a list of
    products, returns the orders unchanged. *)
Theorem enrichment_without_ids_still_looks_up w orders contents b1 products
    ids b2 :
  rpc orders_list_orders (remote w) = (Ok (VList (VDict <$> orders)), b1) →
  Forall2 (λ order c, order_of order c.1 c.2) orders contents →
  referenced contents = [] →
  rpc (products_list []) b1 = (Ok (VList (VDict <$> products)), b2) →
  Forall2 product products ids →
  _get_all_orders rpc PRODUCT_IMAGE_ROOT w
  = (Ok (VList (VDict <$> orders)),
     mkWorld b2 (trace w ++ [orders_list_orders; products_list []])).
Proof.
  intros Hlist Horders Hnone Hproducts Hids.
  destruct (get_all_orders_run w orders contents b1 products ids b2)
    as (pm & orders' & _ & Hrun & Hfilled); try assumption.
  - rewrite Hnone. exact Hproducts.
  - rewrite Hnone. constructor.
  - rewrite Hrun, Hnone. replace orders' with orders; [reflexivity|].
    apply referenced_nil in Hnone. clear Hrun Hlist Hproducts.
    revert orders' Hfilled Hnone.
    induction Horders as [|order c orders contents Hc _ IH];
      intros orders' Hfilled Hnone.
    + apply Forall2_nil_inv_l in Hfilled. by subst.
    + apply Forall2_cons_inv_l in Hfilled as (order' & rest & Hf & Hrest & ->).
      apply Forall_cons in Hnone as [Hc2 Hnone]. rewrite Hc2 in Hc.
      rewrite (order_filled_no_items _ _ _ _ _ Hc Hf).
      f_equal. apply IH; assumption.
Qed.

(** C4: an order payload with a line item whose product id the catalog
    lookup did not return makes [create_order] raise [ProductNotFound], one
    of the exceptions the entrypoint expects, and the orders service is not
    asked to create anything: the only call made is the catalog lookup. *)
Theorem rejected_order_is_never_created w request_data document order items
    product_ids products ids b1 :
  json_loads request_data = inr document →
  CreateOrderSchema_load document = inr (VDict order) →
  order_of order items product_ids →
  rpc (products_list product_ids) (remote w)
  = (Ok (VList (VDict <$> products)), b1) →
  Forall2 product products ids →
  Exists (λ id, id ∉ ids) product_ids →
  ∃ product_id w',
    product_id ∈ product_ids ∧ (product_id ∉ ids) ∧
    create_order rpc json_dumps json_loads CreateOrderSchema_load
      CreateOrderSchema_dump request_data w
    = (Raise (ProductNotFound ("Product Id " +:+ product_id)), w') ∧
    isinstance (ProductNotFound ("Product Id " +:+ product_id))
      create_order_expected_exceptions = true ∧
    trace w' = trace w ++ [products_list product_ids] ∧
    creations (trace w') = creations (trace w).
Proof.
  intros Hjson Hload Horder Hproducts Hids Hex.
  destruct (first_violation (λ id, id ∈ ids) product_ids Hex)
    as (pre & product_id & post & Hsplit & Hpre & Hmiss).
  exists product_id, (mkWorld b1 (trace w ++ [products_list product_ids])).
  split; [rewrite Hsplit, elem_of_app, elem_of_cons; auto|].
  split; [exact Hmiss|]. split; [|split; [reflexivity|split]].
  - unfold create_order, bind, try_except_ValueError, schema_loads, ret.
    rewrite Hjson, Hload. subst product_ids.
    rewrite (create_order_rejects _ _ _ _ _ _ _ _ _
               Horder Hproducts Hids Hpre Hmiss).
    reflexivity.
  - reflexivity.
  - cbn [trace]. rewrite creations_app. simpl. by rewrite app_nil_r.
Qed.

(** Seen through the entrypoint, the refusal is a client error. *)
Lemma POST_orders_rejected w request_data document order items
    product_ids products ids b1 :
  json_loads request_data = inr document →
  CreateOrderSchema_load document = inr (VDict order) →
  order_of order items product_ids →
  rpc (products_list product_ids) (remote w)
  = (Ok (VList (VDict <$> products)), b1) →
  Forall2 product products ids →
  Exists (λ id, id ∉ ids) product_ids →
  ∃ product_id,
    (POST_orders rpc json_dumps json_loads CreateOrderSchema_load
       CreateOrderSchema_dump request_data w).1
    = ClientError (ProductNotFound ("Product Id " +:+ product_id)).
Proof.
  intros Hjson Hload Horder Hproducts Hids Hex.
  destruct (first_violation (λ id, id ∈ ids) product_ids Hex)
    as (pre & product_id & post & Hsplit & Hpre & Hmiss).
  exists product_id.
  unfold POST_orders, http, create_order, bind, try_except_ValueError,
    schema_loads, ret.
  rewrite Hjson, Hload. subst product_ids.
  rewrite (create_order_rejects _ _ _ _ _ _ _ _ _
             Horder Hproducts Hids Hpre Hmiss).
  reflexivity.
Qed.

(** ** What enrichment leaves alone *)

(** C5: enrichment of an order with a product map covering its product
    ids returns the order with the same fields and the same line items in
    the same order, each with its fields as before and a ['product'] and
    an ['image'] field; and [_get_all_orders] returns the orders of the
    ledger in the same number and order, each preserved in that sense. *)
Theorem enrichment_preserves_orders_and_fields :
  (∀ product_map order items product_ids,
     order_of order items product_ids →
     Forall (λ id, is_Some (product_map !! id)) product_ids →
     ∃ order',
       _fill_order_details_with_product PRODUCT_IMAGE_ROOT (VDict order)
         product_map
       = Ok (VDict order') ∧
       order_preserved order order') ∧
  (∀ w orders contents b1 products ids b2,
     rpc orders_list_orders (remote w) = (Ok (VList (VDict <$> orders)), b1) →
     Forall2 (λ order c, order_of order c.1 c.2) orders contents →
     rpc (products_list (referenced contents)) b1
     = (Ok (VList (VDict <$> products)), b2) →
     Forall2 product products ids →
     Forall (λ id, id ∈ ids) (referenced contents) →
     ∃ orders',
       (_get_all_orders rpc PRODUCT_IMAGE_ROOT w).1
       = Ok (VList (VDict <$> orders')) ∧
       length orders' = length orders ∧
       Forall2 order_preserved orders orders').
Proof.
  split.
  - intros product_map order items product_ids. apply fill_order_preserves.
  - intros w orders contents b1 products ids b2 Hlist Horders Hproducts Hids Hall.
    destruct (get_all_orders_run w orders contents b1 products ids b2)
      as (pm & orders' & _ & Hrun & Hfilled); try assumption.
    exists orders'. rewrite Hrun. split; [reflexivity|].
    split; [symmetry; eapply Forall2_length, Hfilled|].
    eapply Forall2_impl; [exact Hfilled|]. apply order_filled_preserved.
Qed.

(** ** Request bodies *)

(** In [create_product] and [create_order], a body that is not JSON
    raises [BadRequest], and a [ValidationError] raised by the schema is
    passed on; the two are different kinds of exception, both among the
    exceptions the entrypoint expects, and nothing is sent to the backend. *)
Lemma malformed_and_invalid_bodies w request_data :
  (∀ msg,
     json_loads request_data = inl msg →
     create_product rpc json_dumps json_loads ProductSchema_load request_data w
     = (Raise (BadRequest ("Invalid json: " +:+ msg)), w) ∧
     create_order rpc json_dumps json_loads CreateOrderSchema_load
       CreateOrderSchema_dump request_data w
     = (Raise (BadRequest ("Invalid json: " +:+ msg)), w) ∧
     isinstance (BadRequest ("Invalid json: " +:+ msg))
       create_product_expected_exceptions = true ∧
     isinstance (BadRequest ("Invalid json: " +:+ msg))
       create_order_expected_exceptions = true) ∧
  (∀ document messages,
     json_loads request_data = inr document →
     ProductSchema_load document = inl messages →
     create_product rpc json_dumps json_loads ProductSchema_load request_data w
     = (Raise (ValidationError messages), w) ∧
     isinstance (ValidationError messages)
       create_product_expected_exceptions = true) ∧
  (∀ document messages,
     json_loads request_data = inr document →
     CreateOrderSchema_load document = inl messages →
     create_order rpc json_dumps json_loads CreateOrderSchema_load
       CreateOrderSchema_dump request_data w
     = (Raise (ValidationError messages), w) ∧
     isinstance (ValidationError messages)
       create_order_expected_exceptions = true) ∧
  (∀ msg messages, class_of (BadRequest msg) ≠ class_of (ValidationError messages)).
Proof.
  split; [|split; [|split]].
  - intros msg Hjson.
    unfold create_product, create_order,
      bind, try_except_ValueError, schema_loads, raise.
    rewrite Hjson. repeat split; reflexivity.
  - intros document messages Hjson Hload.
    unfold create_product, bind, try_except_ValueError, schema_loads, raise.
    rewrite Hjson, Hload. split; reflexivity.
  - intros document messages Hjson Hload.
    unfold create_order, bind, try_except_ValueError, schema_loads, raise.
    rewrite Hjson, Hload. split; reflexivity.
  - discriminate.
Qed.

(** Seen through the entrypoints, both are client errors. *)
Lemma POST_malformed_body w request_data msg :
  json_loads request_data = inl msg →
  POST_products rpc json_dumps json_loads ProductSchema_load request_data w
  = (ClientError (BadRequest ("Invalid json: " +:+ msg)), w) ∧
  POST_orders rpc json_dumps json_loads CreateOrderSchema_load
    CreateOrderSchema_dump request_data w
  = (ClientError (BadRequest ("Invalid json: " +:+ msg)), w).
Proof.
  intros Hjson.
  unfold POST_products, POST_orders, http, create_product, create_order,
    bind, try_except_ValueError, schema_loads, raise.
  rewrite Hjson. split; reflexivity.
Qed.

Lemma POST_products_invalid_body w request_data document messages :
  json_loads request_data = inr document →
  ProductSchema_load document = inl messages →
  POST_products rpc json_dumps json_loads ProductSchema_load request_data w
  = (ClientError (ValidationError messages), w).
Proof.
  intros Hjson Hload.
  unfold POST_products, http, create_product,
    bind, try_except_ValueError, schema_loads, raise.
  rewrite Hjson, Hload. reflexivity.
Qed.

Lemma POST_orders_invalid_body w request_data document messages :
  json_loads request_data = inr document →
  CreateOrderSchema_load document = inl messages →
  POST_orders rpc json_dumps json_loads CreateOrderSchema_load
    CreateOrderSchema_dump request_data w
  = (ClientError (ValidationError messages), w).
Proof.
  intros Hjson Hload.
  unfold POST_orders, http, create_order,
    bind, try_except_ValueError, schema_loads, raise.
  rewrite Hjson, Hload. reflexivity.
Qed.

(** C8: the body [null] is JSON and is no product and no order, yet the
    schema's [load] gives [None] back without raising.  [create_product]
    then sends [None] to the catalog and, when the catalog answers, raises
    [TypeError] on [product_data['id']] (when it does not, the catalog's
    exception); [create_order] raises [TypeError] on
    [order['order_details']].  [TypeError] is neither [BadRequest] nor
    [ValidationError] and is not among the exceptions the entrypoints
    expect. *)
Theorem null_body_is_not_refused w request_data (reply : result value) b1 :
  json_loads request_data = inr VNone →
  ProductSchema_load VNone = inr VNone →
  CreateOrderSchema_load VNone = inr VNone →
  rpc (products_create VNone) (remote w) = (reply, b1) →
  create_product rpc json_dumps json_loads ProductSchema_load request_data w
  = (match reply with
     | Ok _ => Raise TypeError
     | Raise e => Raise e
     end,
     mkWorld b1 (trace w ++ [products_create VNone])) ∧
  isinstance TypeError create_product_expected_exceptions = false ∧
  create_order rpc json_dumps json_loads CreateOrderSchema_load
    CreateOrderSchema_dump request_data w
  = (Raise TypeError, w) ∧
  isinstance TypeError create_order_expected_exceptions = false.
Proof.
  intros Hjson Hproduct Horder Hcreate.
  split; [|split; [reflexivity|split; [|reflexivity]]].
  - unfold create_product, bind, try_except_ValueError, schema_loads, ret,
      invoke, lift.
    rewrite Hjson, Hproduct, Hcreate. by destruct reply.
  - unfold create_order, bind, try_except_ValueError, schema_loads, ret,
      _create_order, lift.
    rewrite Hjson, Horder. reflexivity.
Qed.

(** Seen through the entrypoints, the body [null] is a server fault. *)
Lemma POST_null_body w request_data (reply : value) b1 :
  json_loads request_data = inr VNone →
  ProductSchema_load VNone = inr VNone →
  CreateOrderSchema_load VNone = inr VNone →
  rpc (products_create VNone) (remote w) = (Ok reply, b1) →
  (POST_products rpc json_dumps json_loads ProductSchema_load request_data w).1
  = ServerFault TypeError ∧
  (POST_orders rpc json_dumps json_loads CreateOrderSchema_load
     CreateOrderSchema_dump request_data w).1
  = ServerFault TypeError.
Proof.
  intros Hjson Hproduct Horder Hcreate. split.
  - unfold POST_products, http, create_product, bind, try_except_ValueError,
      schema_loads, ret, invoke, lift.
    rewrite Hjson, Hproduct, Hcreate. reflexivity.
  - unfold POST_orders, http, create_order, bind, try_except_ValueError,
      schema_loads, ret, _create_order, lift.
    rewrite Hjson, Horder. reflexivity.
Qed.

(** ** Deleting a product *)

(** C10: when the catalog's delete call returns the deleted product,
    [remove_product] answers with a JSON response whose body is that
    product as serialized by [ProductSchema], not an empty or fixed body,
    after that one call; it is the response [get_product] gives when the
    catalog's get call returns the same product. *)
Theorem remove_product_returns_serialized_product w product_id prod b1 :
  rpc (products_delete product_id) (remote w) = (Ok (VDict prod), b1) →
  product prod product_id →
  remove_product rpc ProductSchema_dumps product_id w
  = (Ok {| response_data := ProductSchema_dumps (VDict prod);
           mimetype := "application/json" |},
     mkWorld b1 (trace w ++ [products_delete product_id])) ∧
  (∀ w' b1',
     rpc (products_get product_id) (remote w') = (Ok (VDict prod), b1') →
     get_product rpc ProductSchema_dumps product_id w'
     = (Ok {| response_data := ProductSchema_dumps (VDict prod);
              mimetype := "application/json" |},
        mkWorld b1' (trace w' ++ [products_get product_id]))).
Proof.
  intros Hdelete _. split.
  - unfold remove_product, bind, invoke, ret. rewrite Hdelete. reflexivity.
  - intros w' b1' Hget.
    unfold get_product, bind, invoke, ret. rewrite Hget. reflexivity.
Qed.

End Runs.

(** ** Further properties of the pure helpers *)

Lemma extend_product_ids_spec orders all_product_ids :
  extend_product_ids orders all_product_ids
  = idss ← comprehension _get_product_ids_from_order orders;
    Ok (all_product_ids ++ concat idss).
Proof.
  revert all_product_ids.
  induction orders as [|order orders IH]; intros acc; csimpl.
  - by rewrite app_nil_r.
  - destruct (_get_product_ids_from_order order) as [ids|e]; csimpl; [|reflexivity].
    rewrite IH.
    destruct (comprehension _get_product_ids_from_order orders) as [idss|e];
      csimpl; [|reflexivity].
    by rewrite app_assoc.
Qed.

(** X1: the ids collected from a list of orders are the ids collected from
    each order by [_get_product_ids_from_order], put end to end in the
    order of the orders; the first order that fails makes the whole
    collection fail with its exception. *)
Theorem product_ids_of_orders_concat (orders : list value) :
  _get_product_ids_from_orders (VList orders)
  = idss ← comprehension _get_product_ids_from_order orders;
    Ok (concat idss).
Proof.
  unfold _get_product_ids_from_orders. simpl.
  apply (extend_product_ids_spec orders []).
Qed.

Lemma items_filled_line_items image_root product_map items items' product_ids :
  Forall2 line_item items product_ids →
  Forall2 (item_filled image_root product_map) items items' →
  Forall2 line_item items' product_ids.
Proof.
  intros Hitems Hfilled.
  eapply Forall2_impl;
    [exact (items_filled_by_id _ _ _ _ _ Hitems Hfilled)|].
  intros item' pid (item & prod & Hitem & _ & ->).
  by apply filled_line_item.
Qed.

(** X2: enrichment does not disturb the product ids: collecting the ids of
    an enriched order gives the ids of the order it came from. *)
Theorem product_ids_survive_enrichment image_root product_map order items
    product_ids :
  order_of order items product_ids →
  Forall (λ id, is_Some (product_map !! id)) product_ids →
  ∃ order',
    _fill_order_details_with_product image_root (VDict order) product_map
    = Ok order' ∧
    _get_product_ids_from_order order' = Ok product_ids.
Proof.
  intros Horder Hall.
  destruct (fill_order_ok image_root product_map _ _ _ Horder Hall)
    as (items' & Hrun & Hfilled).
  eexists. split; [exact Hrun|].
  apply (get_product_ids_from_order_ok _ items'). split.
  - apply lookup_insert_eq.
  - eapply items_filled_line_items; [apply Horder|exact Hfilled].
Qed.

Lemma comprehension_ext {A B} (f g : A → result B) l :
  Forall (λ x, f x = g x) l → comprehension f l = comprehension g l.
Proof.
  induction 1 as [|x l Hx _ IH]; simpl; [reflexivity|].
  by rewrite Hx, IH.
Qed.

(** X3: enrichment reads the product map only at the ids of the order's
    line items: two maps that agree on those ids give the same result,
    be it an enriched order or a [KeyError]. *)
Theorem enrichment_reads_only_referenced_ids image_root
    (product_map product_map' : gmap string value) order items product_ids :
  order_of order items product_ids →
  (∀ id, id ∈ product_ids → product_map !! id = product_map' !! id) →
  _fill_order_details_with_product image_root (VDict order) product_map
  = _fill_order_details_with_product image_root (VDict order) product_map'.
Proof.
  intros [Hd Hitems] Hagree.
  unfold _fill_order_details_with_product. simpl. rewrite Hd. csimpl.
  rewrite (comprehension_ext (fill_item image_root product_map)
             (fill_item image_root product_map')); [reflexivity|].
  clear Hd. revert Hagree.
  induction Hitems as [|item pid items pids Hitem _ IH]; intros Hagree;
    csimpl; constructor.
  - unfold fill_item.
    rewrite (product_id_of_line_item _ _ Hitem). simpl.
    rewrite (Hagree pid); [reflexivity|apply list_elem_of_here].
  - apply IH. intros id Hin. apply Hagree. by apply list_elem_of_further.
Qed.



Lemma product_map_from_app products1 products2 acc :
  product_map_from (products1 ++ products2) acc
  = product_map_from products1 acc ≫= product_map_from products2.
Proof.
  revert acc. induction products1 as [|prod products1 IH]; intros acc; csimpl.
  - reflexivity.
  - destruct (getitem prod "id" ≫= as_str) as [id|e]; csimpl; [|reflexivity].
    apply IH.
Qed.

Lemma product_map_from_other products ids acc product_map id :
  Forall2 product products ids →
  id ∉ ids →
  product_map_from (VDict <$> products) acc = Ok product_map →
  product_map !! id = acc !! id.
Proof.
  intros H. revert acc.
  induction H as [|prod id' products ids Hp _ IH]; intros acc Hid; csimpl.
  - by intros [= <-].
  - unfold product in Hp. rewrite Hp. csimpl. intros Hrun.
    apply not_elem_of_cons in Hid as [Hne Hid].
    rewrite (IH _ Hid Hrun). by apply lookup_insert_ne.
Qed.

(** X5: when the catalog answers with several products of the same id,
    the product map keeps the last of them. *)
Theorem last_product_of_an_id_wins earlier ids_earlier prod id later ids_later :
  Forall2 product earlier ids_earlier →
  product prod id →
  Forall2 product later ids_later →
  id ∉ ids_later →
  ∃ product_map,
    product_map_of (VList (VDict <$> (earlier ++ prod :: later)))
    = Ok product_map ∧
    product_map !! id = Some (VDict prod).
Proof.
  intros Hearlier Hprod Hlater Hfresh.
  unfold product_map_of. simpl.
  rewrite fmap_app, fmap_cons, product_map_from_app.
  destruct (product_map_from_ok _ _ ∅ Hearlier) as (pm1 & -> & _). csimpl.
  unfold product in Hprod. rewrite Hprod. csimpl.
  destruct (product_map_from_ok _ _ (<[id := VDict prod]> pm1) Hlater)
    as (pm & Hrun & _).
  exists pm. split; [exact Hrun|].
  rewrite (product_map_from_other _ _ _ _ _ Hlater Hfresh Hrun).
  apply lookup_insert_eq.
Qed.

Lemma product_map_from_entries products ids acc product_map id p :
  Forall2 product products ids →
  product_map_from (VDict <$> products) acc = Ok product_map →
  product_map !! id = Some p →
  (∃ prod, p = VDict prod ∧ prod ∈ products ∧ product prod id) ∨
  acc !! id = Some p.
Proof.
  intros H. revert acc.
  induction H as [|prod id' products ids Hp _ IH]; intros acc; csimpl.
  - intros [= <-]. auto.
  - pose proof Hp as Hp'. unfold product in Hp'. rewrite Hp'. csimpl.
    intros Hrun Hlook.
    destruct (IH _ Hrun Hlook) as [(prod' & -> & Hin & Hprod')|Hacc].
    + left. exists prod'. split; [reflexivity|]. split; [|exact Hprod'].
      by apply list_elem_of_further.
    + destruct (decide (id' = id)) as [->|Hne].
      * rewrite lookup_insert_eq in Hacc. injection Hacc as <-.
        left. exists prod. split; [reflexivity|]. split; [|exact Hp].
        apply list_elem_of_here.
      * rewrite lookup_insert_ne in Hacc by exact Hne. by right.
Qed.

Lemma list_ascii_of_append (s t : string) :
  Strings.String.list_ascii_of_string (s +:+ t)
  = Strings.String.list_ascii_of_string s ++ Strings.String.list_ascii_of_string t.
Proof.
  induction s as [|a s IH]; [reflexivity|].
  change (a :: Strings.String.list_ascii_of_string (s +:+ t)
          = a :: (Strings.String.list_ascii_of_string s ++ Strings.String.list_ascii_of_string t)).
  by rewrite IH.
Qed.

(** X6: for a given image root, line items of different products get
    different image urls. *)
Theorem image_url_injective image_root product_id product_id' :
  image_url image_root product_id = image_url image_root product_id' →
  product_id = product_id'.
Proof.
  unfold image_url. intros H.
  apply (f_equal Strings.String.list_ascii_of_string) in H.
  rewrite !list_ascii_of_append in H.
  do 2 apply app_inv_head in H. apply app_inv_tail in H.
  rewrite <- (Strings.String.string_of_list_ascii_of_string product_id).
  rewrite <- (Strings.String.string_of_list_ascii_of_string product_id').
  by rewrite H.
Qed.

(** ** Further properties of the runs *)

Section MoreRuns.

Context {backend : Type}.
Variable rpc : call → backend → result value * backend.
Variable PRODUCT_IMAGE_ROOT : string.
Variable json_dumps : value → string.
Variable json_loads : string → string + value.
Variable ProductSchema_load : value → value + value.
Variable CreateOrderSchema_load : value → value + value.
Variable CreateOrderSchema_dump : value → value.

Implicit Types (w : @world backend) (b : backend).
Implicit Types (order prod : gmap string value).
Implicit Types (orders items products : list (gmap string value)).
Implicit Types (ids product_ids : list string).
Implicit Types (contents : list (list (gmap string value) * list string)).

(** X7: whatever the backend answers, reading orders only reads: the
    calls made by [_get_all_orders] are the listing of the orders and then
    at most one catalog lookup, and those made by [_get_order] are the
    fetch of the order and then at most one catalog lookup. *)
Theorem reading_orders_only_reads w :
  (∃ added,
     trace (_get_all_orders rpc PRODUCT_IMAGE_ROOT w).2 = trace w ++ added ∧
     (added = [orders_list_orders] ∨
      ∃ ids, added = [orders_list_orders; products_list ids])) ∧
  (∀ order_id, ∃ added,
     trace (_get_order rpc PRODUCT_IMAGE_ROOT order_id w).2 = trace w ++ added ∧
     (added = [orders_get_order order_id] ∨
      ∃ ids, added = [orders_get_order order_id; products_list ids])).
Proof.
  split.
  - unfold _get_all_orders, _list_products, bind, invoke, lift, ret.
    destruct (rpc orders_list_orders (remote w)) as [[orders|e] b1];
      cbn [remote trace snd]; [|eauto].
    destruct (_get_product_ids_from_orders orders) as [ids|e];
      cbn [snd trace]; [|eauto].
    exists [orders_list_orders; products_list ids].
    split; [|eauto].
    destruct (rpc (products_list ids) b1) as [[products|e] b2];
      cbn [snd trace]; [|by rewrite <- app_assoc].
    destruct (product_map_of products) as [pm|e];
      cbn [snd trace]; [|by rewrite <- app_assoc].
    destruct (iter orders ≫= _) as [os|e]; cbn [snd trace];
      by rewrite <- app_assoc.
  - intros order_id.
    unfold _get_order, _list_products, bind, invoke, lift.
    destruct (rpc (orders_get_order order_id) (remote w)) as [[order|e] b1];
      cbn [remote trace snd]; [|eauto].
    destruct (_get_product_ids_from_order order) as [ids|e];
      cbn [snd trace]; [|eauto].
    exists [orders_get_order order_id; products_list ids].
    split; [|eauto].
    destruct (rpc (products_list ids) b1) as [[products|e] b2];
      cbn [snd trace]; [|by rewrite <- app_assoc].
    destruct (product_map_of products) as [pm|e];
      cbn [snd trace]; by rewrite <- app_assoc.
Qed.

(** X8: whatever the payload and whatever the backend answers,
    [_create_order] makes no call, or one catalog lookup, or one catalog
    lookup followed by one order creation; the line items it submits are
    those of the payload as serialized by the schema. *)
Theorem create_order_calls (order_data : value) w :
  ∃ added,
    trace (_create_order rpc CreateOrderSchema_dump order_data w).2
    = trace w ++ added ∧
    (added = [] ∨
     (∃ ids, added = [products_list ids]) ∨
     (∃ ids order_details,
        added = [products_list ids; orders_create_order order_details] ∧
        getitem (CreateOrderSchema_dump order_data) "order_details"
        = Ok order_details)).
Proof.
  unfold _create_order, _list_products, bind, invoke, lift.
  destruct (_get_product_ids_from_order order_data) as [ids|e];
    cbn [snd trace]; [|exists []; split; [by rewrite app_nil_r|auto]].
  destruct (rpc (products_list ids) (remote w)) as [[products|e] b1];
    cbn [snd trace remote]; [|eauto 6].
  destruct (product_id_set_of products) as [valid|e];
    cbn [snd trace]; [|eauto 6].
  destruct (_ ← _; check_product_ids valid _) as [[]|e];
    cbn [snd trace]; [|eauto 6].
  destruct (getitem (CreateOrderSchema_dump order_data) "order_details")
    as [details|e] eqn:Hdetails; cbn [snd trace remote]; [|eauto 6].
  destruct (rpc (orders_create_order details) b1) as [reply b2].
  cbn [snd trace].
  exists [products_list ids; orders_create_order details].
  split; [by rewrite <- app_assoc|]. right. right. eauto.
Qed.

(** X9: an order is created only when every product id of its line items
    was returned by the catalog lookup. *)
Theorem order_created_only_if_valid w order items product_ids products ids b1 :
  order_of order items product_ids →
  rpc (products_list product_ids) (remote w)
  = (Ok (VList (VDict <$> products)), b1) →
  Forall2 product products ids →
  creations (trace (_create_order rpc CreateOrderSchema_dump (VDict order) w).2)
  ≠ creations (trace w) →
  Forall (λ id, id ∈ ids) product_ids.
Proof.
  intros Horder Hproducts Hids Hcreated.
  destruct (decide (Forall (λ id, id ∈ ids) product_ids)) as [Hall|Hnot];
    [exact Hall|].
  exfalso. apply Hcreated.
  apply not_Forall_Exists in Hnot; [|apply _].
  destruct (first_violation (λ id, id ∈ ids) product_ids Hnot)
    as (pre & product_id & post & -> & Hpre & Hmiss).
  rewrite (create_order_rejects rpc CreateOrderSchema_dump _ _ _ _ _ _ _ _ _
             Horder Hproducts Hids Hpre Hmiss).
  cbn [snd trace]. rewrite creations_app. simpl. by rewrite app_nil_r.
Qed.

(** X10: the whole of a successful [create_order]: the body is decoded and
    validated, the ids of its line items are looked up once, the serialized
    line items are submitted once, and the response is the id of the order
    the orders service returned. *)
Theorem create_order_responds_with_the_new_id w request_data document order
    items product_ids products ids b1 order_details created id b2 :
  json_loads request_data = inr document →
  CreateOrderSchema_load document = inr (VDict order) →
  order_of order items product_ids →
  rpc (products_list product_ids) (remote w)
  = (Ok (VList (VDict <$> products)), b1) →
  Forall2 product products ids →
  Forall (λ id, id ∈ ids) product_ids →
  getitem (CreateOrderSchema_dump (VDict order)) "order_details"
  = Ok order_details →
  rpc (orders_create_order order_details) b1 = (Ok (VDict created), b2) →
  created !! "id" = Some id →
  create_order rpc json_dumps json_loads CreateOrderSchema_load
    CreateOrderSchema_dump request_data w
  = (Ok {| response_data := json_dumps (VDict {["id" := id]});
           mimetype := "application/json" |},
     mkWorld b2 (trace w ++ [products_list product_ids;
                             orders_create_order order_details])).
Proof.
  intros Hjson Hload Horder Hproducts Hids Hall Hdetails Hcreate Hid.
  unfold create_order, bind, try_except_ValueError, schema_loads, ret.
  rewrite Hjson, Hload.
  rewrite (create_order_accepts rpc CreateOrderSchema_dump _ _ _ _ _ _ _
             Horder Hproducts Hids Hall).
  unfold submit_order, bind, lift, invoke. rewrite Hdetails.
  cbn [remote trace]. rewrite Hcreate. unfold lift. simpl. rewrite Hid.
  by rewrite <- app_assoc.
Qed.

(** X11: a payload without line items passes validation whatever products
    the catalog returns for the empty lookup, and is submitted. *)
Theorem empty_order_is_submitted w order products ids b1 :
  order !! "order_details" = Some (VList []) →
  rpc (products_list []) (remote w) = (Ok (VList (VDict <$> products)), b1) →
  Forall2 product products ids →
  _create_order rpc CreateOrderSchema_dump (VDict order) w
  = submit_order rpc CreateOrderSchema_dump (VDict order)
      (mkWorld b1 (trace w ++ [products_list []])).
Proof.
  intros Hd Hproducts Hids.
  apply (create_order_accepts rpc CreateOrderSchema_dump w order [] []
           products ids b1); [|assumption..|constructor].
  split; [exact Hd|constructor].
Qed.

Lemma fill_all_missing image_root product_map good contents_good bad items pre
    product_id post (rest : list value) :
  Forall2 (λ order c, order_of order c.1 c.2) good contents_good →
  Forall (λ id, is_Some (product_map !! id)) (referenced contents_good) →
  order_of bad items (pre ++ product_id :: post) →
  Forall (λ id, is_Some (product_map !! id)) pre →
  product_map !! product_id = None →
  comprehension (fill_and_update image_root product_map)
    ((VDict <$> good) ++ VDict bad :: rest)
  = Raise (KeyError product_id).
Proof.
  intros Hgood Hcovered Hbad Hpre Hmiss.
  destruct (fill_all_ok image_root product_map _ _ Hgood Hcovered)
    as (good' & Hrun & _).
  eapply comprehension_raise.
  - apply comprehension_inv, Hrun.
  - unfold fill_and_update.
    by rewrite (fill_order_missing _ _ _ _ _ _ _ Hbad Hpre Hmiss).
Qed.

(** X12: one line item whose product the catalog did not return makes
    the listing of all orders fail as a whole: [_get_all_orders] raises
    [KeyError] for the first such product id, after both calls have been
    made, and returns none of the orders. *)
Theorem one_missing_product_fails_the_listing w orders contents b1 products ids
    b2 contents_good items pre product_id post contents_rest :
  rpc orders_list_orders (remote w) = (Ok (VList (VDict <$> orders)), b1) →
  Forall2 (λ order c, order_of order c.1 c.2) orders contents →
  rpc (products_list (referenced contents)) b1
  = (Ok (VList (VDict <$> products)), b2) →
  Forall2 product products ids →
  contents = contents_good ++ (items, pre ++ product_id :: post) :: contents_rest →
  Forall (λ id, id ∈ ids) (referenced contents_good) →
  Forall (λ id, id ∈ ids) pre →
  product_id ∉ ids →
  _get_all_orders rpc PRODUCT_IMAGE_ROOT w
  = (Raise (KeyError product_id),
     mkWorld b2 (trace w ++ [orders_list_orders;
                             products_list (referenced contents)])).
Proof.
  intros Hlist Horders Hproducts Hids Hsplit Hgood Hpre Hmiss.
  destruct (product_map_of_ok _ _ Hids) as (pm & Hpm & Hdom).
  unfold _get_all_orders, _list_products, bind, invoke, lift, ret.
  rewrite Hlist. cbn [remote trace].
  rewrite (get_product_ids_from_orders_ok _ _ Horders).
  rewrite Hproducts, Hpm. cbn [iter mbind result_bind].
  subst contents.
  apply Forall2_app_inv_r in Horders as (good & tail & Hg & Htail & ->).
  apply Forall2_cons_inv_r in Htail as (bad & rest & Hbad & _ & ->).
  rewrite fmap_app, fmap_cons.
  rewrite (fill_all_missing PRODUCT_IMAGE_ROOT pm _ _ _ _ _ _ _ _
             Hg (covered_by_dom _ _ _ Hdom Hgood) Hbad
             (covered_by_dom _ _ _ Hdom Hpre) (missing_by_dom _ _ _ Hdom Hmiss)).
  by rewrite <- app_assoc.
Qed.

(** X13: an order without ['order_details'] among those of the ledger
    stops [_get_all_orders] before anything is asked of the catalog: it
    raises [KeyError] for that key and the only call made is the listing. *)
Theorem order_without_details_stops_the_listing w good contents_good bad
    (rest : list value) b1 :
  rpc orders_list_orders (remote w)
  = (Ok (VList ((VDict <$> good) ++ VDict bad :: rest)), b1) →
  Forall2 (λ order c, order_of order c.1 c.2) good contents_good →
  bad !! "order_details" = None →
  _get_all_orders rpc PRODUCT_IMAGE_ROOT w
  = (Raise (KeyError "order_details"),
     mkWorld b1 (trace w ++ [orders_list_orders])).
Proof.
  intros Hlist Hgood Hbad.
  unfold _get_all_orders, _list_products, bind, invoke, lift, ret.
  rewrite Hlist. cbn [remote trace].
  unfold _get_product_ids_from_orders. cbn [iter mbind result_bind].
  rewrite extend_product_ids_spec.
  assert (comprehension _get_product_ids_from_order
            ((VDict <$> good) ++ VDict bad :: rest)
          = Raise (KeyError "order_details")) as ->; [|reflexivity].
  eapply (comprehension_raise _ _ _ _ (snd <$> contents_good)).
  - apply Forall2_fmap_l, Forall2_fmap_r.
    eapply Forall2_impl; [exact Hgood|].
    intros order c. apply get_product_ids_from_order_ok.
  - unfold _get_product_ids_from_order. simpl. by rewrite Hbad.
Qed.

(** X14: what [_get_order] attaches to a line item is a product the
    catalog returned whose ['id'] is the line item's ['product_id']. *)
Theorem get_order_attaches_the_product_of_the_id w order_id order items
    product_ids b1 products ids b2 :
  rpc (orders_get_order order_id) (remote w) = (Ok (VDict order), b1) →
  order_of order items product_ids →
  rpc (products_list product_ids) b1 = (Ok (VList (VDict <$> products)), b2) →
  Forall2 product products ids →
  Forall (λ id, id ∈ ids) product_ids →
  ∃ items',
    (_get_order rpc PRODUCT_IMAGE_ROOT order_id w).1
    = Ok (VDict (<["order_details" := VList (VDict <$> items')]> order)) ∧
    Forall2 (λ item' product_id,
               item' !! "product_id" = Some (VStr product_id) ∧
               ∃ prod, prod ∈ products ∧
                 prod !! "id" = Some (VStr product_id) ∧
                 item' !! "product" = Some (VDict prod))
            items' product_ids.
Proof.
  intros Hget Horder Hproducts Hids Hall.
  destruct (get_order_run rpc PRODUCT_IMAGE_ROOT w order_id order items
              product_ids b1 products ids b2)
    as (pm & items' & Hpm & Hrun & Hfilled); try assumption.
  exists items'. rewrite Hrun. split; [reflexivity|].
  eapply Forall2_impl;
    [exact (items_filled_by_id _ _ _ _ _ (proj2 Horder) Hfilled)|].
  intros item' pid (item & p & Hitem & Hp & ->). split.
  - by apply filled_line_item.
  - unfold product_map_of in Hpm. simpl in Hpm.
    destruct (product_map_from_entries _ _ _ _ _ _ Hids Hpm Hp)
      as [(prod & -> & Hin & Hprod)|Hempty].
    + exists prod. split; [exact Hin|]. split; [exact Hprod|].
      apply filled_product.
    + by rewrite lookup_empty in Hempty.
Qed.

(** X15: the whole of a successful [create_product]: the validated data
    is sent to the catalog in one call, and the response is the ['id'] of
    that data, whatever the catalog replied. *)
Theorem create_product_responds_with_the_id w request_data document
    product_data (reply : value) b1 id :
  json_loads request_data = inr document →
  ProductSchema_load document = inr product_data →
  rpc (products_create product_data) (remote w) = (Ok reply, b1) →
  getitem product_data "id" = Ok id →
  create_product rpc json_dumps json_loads ProductSchema_load request_data w
  = (Ok {| response_data := json_dumps (VDict {["id" := id]});
           mimetype := "application/json" |},
     mkWorld b1 (trace w ++ [products_create product_data])).
Proof.
  intros Hjson Hload Hcreate Hid.
  unfold create_product, bind, try_except_ValueError, schema_loads, ret,
    invoke, lift.
  rewrite Hjson, Hload, Hcreate, Hid. reflexivity.
Qed.

(** X16: a line item without ['product_id'] stops [_get_order] before
    anything is asked of the catalog: it raises [KeyError] for that key and
    the only call made is the fetch of the order. *)
Theorem line_item_without_product_id_stops_get_order w order_id order
    good ids_good bad (rest : list value) b1 :
  rpc (orders_get_order order_id) (remote w) = (Ok (VDict order), b1) →
  order !! "order_details"
  = Some (VList ((VDict <$> good) ++ VDict bad :: rest)) →
  Forall2 line_item good ids_good →
  bad !! "product_id" = None →
  _get_order rpc PRODUCT_IMAGE_ROOT order_id w
  = (Raise (KeyError "product_id"),
     mkWorld b1 (trace w ++ [orders_get_order order_id])).
Proof.
  intros Hget Hd Hgood Hbad.
  unfold _get_order, _list_products, bind, invoke, lift.
  rewrite Hget. cbn [remote trace].
  assert (_get_product_ids_from_order (VDict order)
          = Raise (KeyError "product_id")) as ->; [|reflexivity].
  unfold _get_product_ids_from_order. simpl. rewrite Hd. csimpl.
  eapply (comprehension_raise _ _ _ _ ids_good).
  - apply Forall2_fmap_l.
    eapply Forall2_impl; [exact Hgood|]. apply product_id_of_line_item.
  - unfold product_id_of. simpl. by rewrite Hbad.
Qed.

(** X17: a failure of the catalog lookup is passed on as it is, and
    nothing is called after it: [_create_order] creates no order, and
    [_get_all_orders] and [_get_order] return no order. *)
Theorem lookup_failure_is_passed_on e :
  (∀ w order items product_ids b1,
     order_of order items product_ids →
     rpc (products_list product_ids) (remote w) = (Raise e, b1) →
     _create_order rpc CreateOrderSchema_dump (VDict order) w
     = (Raise e, mkWorld b1 (trace w ++ [products_list product_ids]))) ∧
  (∀ w orders contents b1 b2,
     rpc orders_list_orders (remote w) = (Ok (VList (VDict <$> orders)), b1) →
     Forall2 (λ order c, order_of order c.1 c.2) orders contents →
     rpc (products_list (referenced contents)) b1 = (Raise e, b2) →
     _get_all_orders rpc PRODUCT_IMAGE_ROOT w
     = (Raise e,
        mkWorld b2 (trace w ++ [orders_list_orders;
                                products_list (referenced contents)]))) ∧
  (∀ w order_id order items product_ids b1 b2,
     rpc (orders_get_order order_id) (remote w) = (Ok (VDict order), b1) →
     order_of order items product_ids →
     rpc (products_list product_ids) b1 = (Raise e, b2) →
     _get_order rpc PRODUCT_IMAGE_ROOT order_id w
     = (Raise e,
        mkWorld b2 (trace w ++ [orders_get_order order_id;
                                products_list product_ids]))).
Proof.
  split; [|split].
  - intros w order items product_ids b1 Horder Hlookup.
    unfold _create_order, _list_products, bind, invoke, lift.
    rewrite (get_product_ids_from_order_ok _ _ _ Horder), Hlookup.
    reflexivity.
  - intros w orders contents b1 b2 Hlist Horders Hlookup.
    unfold _get_all_orders, _list_products, bind, invoke, lift, ret.
    rewrite Hlist. cbn [remote trace].
    rewrite (get_product_ids_from_orders_ok _ _ Horders), Hlookup.
    by rewrite <- app_assoc.
  - intros w order_id order items product_ids b1 b2 Hget Horder Hlookup.
    unfold _get_order, _list_products, bind, invoke, lift.
    rewrite Hget. cbn [remote trace].
    rewrite (get_product_ids_from_order_ok _ _ _ Horder), Hlookup.
    by rewrite <- app_assoc.
Qed.

End MoreRuns.

(** ** The service at work in the small shop *)

Section Examples.

Import Demo.

Local Ltac shop_facts :=
  repeat first
    [ reflexivity
    | progress (vm_compute; reflexivity)
    | match goal with
      | |- _ ∧ _ => split
      | |- order_of _ _ _ => split; cbn [fst snd]
      | |- Forall2 _ [] [] => constructor
      | |- Forall2 _ (_ :: _) (_ :: _) => constructor; cbv beta
      | |- Forall _ (referenced ?c) =>
          let l := eval vm_compute in (referenced c) in
          change (referenced c) with l
      | |- Forall _ [] => constructor
      | |- Forall _ (_ :: _) => constructor; cbv beta
      | |- is_Some _ => eexists
      | |- _ ∈ _ :: _ => first [apply list_elem_of_here | apply list_elem_of_further]
      | |- _ ∉ _ => set_solver
      end ].

(** An order for a stocked product and for a product the catalog does
    not have is refused, naming the missing product. *)
Lemma create_order_validation_witness :
  _create_order rpc CreateOrderSchema_dump
    (VDict (payload [item "p1" 2; item "ghost" 1])) (world0 stocked)
  = (Raise (ProductNotFound "Product Id ghost"),
     mkWorld stocked [products_list ["p1"; "ghost"]]).
Proof.
  apply (proj2 (create_order_validation rpc CreateOrderSchema_dump
                  (world0 stocked) (payload [item "p1" 2; item "ghost" 1])
                  [item "p1" 2; item "ghost" 1] ["p1"; "ghost"]
                  [p1] ["p1"] stocked
                  ltac:(shop_facts) ltac:(shop_facts) ltac:(shop_facts))
               ["p1"] "ghost" []); shop_facts.
Defined.

(** The ledger of [trading] holds an order with two line items for the
    same product and an order for another product; a payload may repeat
    a product too. *)
Lemma lookup_argument_lists_every_line_item_witness :
  lookups (trace (_get_all_orders rpc image_root (world0 trading)).2)
  = [["p1"; "p1"; "p2"]] ∧
  lookups (trace (_get_order rpc image_root 1 (world0 trading)).2)
  = [["p1"; "p1"]] ∧
  lookups (trace (_create_order rpc CreateOrderSchema_dump
                    (VDict (payload [item "p1" 2; item "p1" 1]))
                    (world0 stocked)).2)
  = [["p1"; "p1"]].
Proof.
  destruct (lookup_argument_lists_every_line_item rpc image_root
              CreateOrderSchema_dump) as (Hall & Hone & Hcreate).
  split; [|split].
  - apply (Hall (world0 trading)
             [order 1 [item "p1" 2; item "p1" 1]; order 2 [item "p2" 5]]
             [([item "p1" 2; item "p1" 1], ["p1"; "p1"]);
              ([item "p2" 5], ["p2"])]
             trading); shop_facts.
  - apply (Hone (world0 trading) 1%Z (order 1 [item "p1" 2; item "p1" 1])
             [item "p1" 2; item "p1" 1] ["p1"; "p1"] trading); shop_facts.
  - apply (Hcreate (world0 stocked) (payload [item "p1" 2; item "p1" 1])
             [item "p1" 2; item "p1" 1] ["p1"; "p1"]); shop_facts.
Defined.

(** The id list sent to the catalog for the orders of [trading] has a
    duplicate. *)
Lemma lookup_argument_repeats_ids :
  ¬ Forall NoDup
      (lookups (trace (_get_all_orders rpc image_root (world0 trading)).2)).
Proof.
  assert (lookups (trace (_get_all_orders rpc image_root (world0 trading)).2)
          = [["p1"; "p1"; "p2"]]) as -> by (vm_compute; reflexivity).
  intros H. apply Forall_cons in H as [Hnodup _].
  apply NoDup_cons in Hnodup as [Hfresh _].
  apply Hfresh, list_elem_of_here.
Qed.

Lemma enrichment_without_ids_still_looks_up_witness :
  _get_all_orders rpc image_root (world0 idle)
  = (Ok (VList [VDict (order 1 [])]),
     mkWorld idle [orders_list_orders; products_list []]).
Proof.
  apply (enrichment_without_ids_still_looks_up rpc image_root (world0 idle)
           [order 1 []] [([], [])] idle [] [] idle); shop_facts.
Defined.

(** With no order at all, and with one order without line items, the
    catalog is still called. *)
Lemma lookup_made_without_ids :
  lookups (trace (_get_all_orders rpc image_root (world0 closed)).2) ≠ [] ∧
  lookups (trace (_get_all_orders rpc image_root (world0 idle)).2) ≠ [].
Proof. split; vm_compute; discriminate. Qed.

Lemma rejected_order_is_never_created_witness :
  ∃ product_id w',
    product_id ∈ ["p1"; "ghost"] ∧ (product_id ∉ ["p1"]) ∧
    create_order rpc json_dumps json_loads CreateOrderSchema_load
      CreateOrderSchema_dump "order p1 ghost" (world0 stocked)
    = (Raise (ProductNotFound ("Product Id " +:+ product_id)), w') ∧
    isinstance (ProductNotFound ("Product Id " +:+ product_id))
      create_order_expected_exceptions = true ∧
    trace w' = [products_list ["p1"; "ghost"]] ∧
    creations (trace w') = [].
Proof.
  apply (rejected_order_is_never_created rpc json_dumps json_loads
           CreateOrderSchema_load CreateOrderSchema_dump (world0 stocked)
           "order p1 ghost" (VDict (payload [item "p1" 2; item "ghost" 1]))
           (payload [item "p1" 2; item "ghost" 1])
           [item "p1" 2; item "ghost" 1] ["p1"; "ghost"] [p1] ["p1"] stocked);
    try solve [shop_facts].
  apply Exists_cons_tl, Exists_cons_hd. set_solver.
Defined.

Lemma enrichment_preserves_orders_and_fields_witness :
  (∃ order',
     _fill_order_details_with_product image_root
       (VDict (order 1 [item "p1" 2; item "p2" 1]))
       {[ "p1" := VDict p1; "p2" := VDict p2 ]}
     = Ok (VDict order') ∧
     order_preserved (order 1 [item "p1" 2; item "p2" 1]) order') ∧
  (∃ orders',
     (_get_all_orders rpc image_root (world0 trading)).1
     = Ok (VList (VDict <$> orders')) ∧
     length orders' = 2 ∧
     Forall2 order_preserved
       [order 1 [item "p1" 2; item "p1" 1]; order 2 [item "p2" 5]] orders').
Proof.
  destruct (enrichment_preserves_orders_and_fields rpc image_root)
    as [Hfill Hall].
  split.
  - apply (Hfill _ _ [item "p1" 2; item "p2" 1] ["p1"; "p2"]); shop_facts.
  - apply (Hall (world0 trading)
             [order 1 [item "p1" 2; item "p1" 1]; order 2 [item "p2" 5]]
             [([item "p1" 2; item "p1" 1], ["p1"; "p1"]);
              ([item "p2" 5], ["p2"])]
             trading [p1; p2] ["p1"; "p2"] trading); shop_facts.
Defined.

Lemma missing_product_fails_hard_witness :
  _fill_order_details_with_product image_root
    (VDict (order 1 [item "p1" 2; item "ghost" 1])) {[ "p1" := VDict p1 ]}
  = Raise (KeyError "ghost") ∧
  ∃ items',
    _fill_order_details_with_product image_root
      (VDict (order 2 [item "p1" 2])) {[ "p1" := VDict p1 ]}
    = Ok (VDict (<["order_details" := VList (VDict <$> items')]>
                   (order 2 [item "p1" 2]))) ∧
    Forall2 (λ item' product_id, ∃ prod,
               ({[ "p1" := VDict p1 ]} : gmap string value) !! product_id
               = Some prod ∧
               item' !! "product" = Some prod)
            items' ["p1"].
Proof.
  split.
  - apply (proj1 (missing_product_fails_hard image_root {[ "p1" := VDict p1 ]}
                    (order 1 [item "p1" 2; item "ghost" 1])
                    [item "p1" 2; item "ghost" 1] ["p1"; "ghost"]
                    ltac:(shop_facts)) ["p1"] "ghost" []); shop_facts.
  - apply (proj2 (missing_product_fails_hard image_root {[ "p1" := VDict p1 ]}
                    (order 2 [item "p1" 2]) [item "p1" 2] ["p1"]
                    ltac:(shop_facts))); shop_facts.
Defined.

Lemma image_is_root_slash_id_jpg_witness :
  ∃ items',
    _fill_order_details_with_product image_root
      (VDict (order 2 [item "p1" 2])) {[ "p1" := VDict p1 ]}
    = Ok (VDict (<["order_details" := VList (VDict <$> items')]>
                   (order 2 [item "p1" 2]))) ∧
    Forall2 (λ item' product_id,
               item' !! "image"
               = Some (VStr (image_root +:+ "/" +:+ product_id +:+ ".jpg")) ∧
               ∃ prefix,
                 image_root +:+ "/" +:+ product_id +:+ ".jpg"
                 = prefix +:+ product_id +:+ ".jpg")
            items' ["p1"].
Proof.
  apply (image_is_root_slash_id_jpg image_root {[ "p1" := VDict p1 ]}
           (order 2 [item "p1" 2]) [item "p1" 2] ["p1"]); shop_facts.
Defined.

(** The image of the line item for [p1] under the root [http://img] has
    a slash between the root and the id, so it is not the root, the id
    and [.jpg] put together. *)
Lemma image_is_not_root_id_jpg :
  _fill_order_details_with_product "http://img"
    (VDict (order 2 [item "p1" 2])) {[ "p1" := VDict p1 ]}
  = Ok (VDict (order 2 [<["image" := VStr "http://img/p1.jpg"]>
                          (<["product" := VDict p1]> (item "p1" 2))])) ∧
  "http://img/p1.jpg" ≠ "http://img" +:+ "p1" +:+ ".jpg".
Proof. split; [vm_compute; reflexivity|discriminate]. Qed.

Lemma malformed_and_invalid_bodies_witness :
  create_product rpc json_dumps json_loads ProductSchema_load "{"
    (world0 stocked)
  = (Raise (BadRequest "Invalid json: Expecting value"), world0 stocked) ∧
  create_order rpc json_dumps json_loads CreateOrderSchema_load
    CreateOrderSchema_dump "{" (world0 stocked)
  = (Raise (BadRequest "Invalid json: Expecting value"), world0 stocked) ∧
  create_product rpc json_dumps json_loads ProductSchema_load "{}"
    (world0 stocked)
  = (Raise
       (ValidationError
          (VDict {[ "id" := VList [VStr "Missing data for required field."] ]})),
     world0 stocked) ∧
  create_order rpc json_dumps json_loads CreateOrderSchema_load
    CreateOrderSchema_dump "{}" (world0 stocked)
  = (Raise
       (ValidationError
          (VDict {[ "order_details"
                    := VList [VStr "Missing data for required field."] ]})),
     world0 stocked).
Proof.
  destruct (malformed_and_invalid_bodies rpc json_dumps json_loads
              ProductSchema_load CreateOrderSchema_load CreateOrderSchema_dump
              (world0 stocked) "{") as [Hmalformed _].
  destruct (malformed_and_invalid_bodies rpc json_dumps json_loads
              ProductSchema_load CreateOrderSchema_load CreateOrderSchema_dump
              (world0 stocked) "{}") as (_ & Hproduct & Horder & _).
  destruct (Hmalformed "Expecting value" eq_refl) as (Hp & Ho & _).
  split; [exact Hp|]. split; [exact Ho|]. split.
  - apply (Hproduct (VDict ∅)); reflexivity.
  - apply (Horder (VDict ∅)); reflexivity.
Defined.

Lemma enrichment_is_idempotent_witness :
  ∃ order',
    _fill_order_details_with_product image_root
      (VDict (order 1 [item "p1" 2; item "p2" 1]))
      {[ "p1" := VDict p1; "p2" := VDict p2 ]}
    = Ok order' ∧
    _fill_order_details_with_product image_root order'
      {[ "p1" := VDict p1; "p2" := VDict p2 ]}
    = Ok order'.
Proof.
  apply (enrichment_is_idempotent image_root _ _
           [item "p1" 2; item "p2" 1] ["p1"; "p2"]); shop_facts.
Defined.

Lemma remove_product_returns_serialized_product_witness :
  remove_product rpc schema_dumps "p1" (world0 stocked)
  = (Ok {| response_data := "{id: p1, ...}"; mimetype := "application/json" |},
     mkWorld (mkShop [p2] []) [products_delete "p1"]) ∧
  get_product rpc schema_dumps "p1" (world0 stocked)
  = (Ok {| response_data := "{id: p1, ...}"; mimetype := "application/json" |},
     mkWorld stocked [products_get "p1"]).
Proof.
  destruct (remove_product_returns_serialized_product rpc schema_dumps
              (world0 stocked) "p1" p1 (mkShop [p2] []))
    as [Hremove Hsame]; [shop_facts..|].
  split; [exact Hremove|].
  apply (Hsame (world0 stocked) stocked). shop_facts.
Defined.

(** The body [null] sent to a shop whose decoder and schemas take it as
    marshmallow does. *)
Lemma null_body_is_not_refused_witness :
  create_product rpc_accepting json_dumps json_loads_with_null
    (none_passes ProductSchema_load) "null" (world0 stocked)
  = (Raise TypeError, mkWorld stocked [products_create VNone]) ∧
  isinstance TypeError create_product_expected_exceptions = false ∧
  create_order rpc_accepting json_dumps json_loads_with_null
    (none_passes CreateOrderSchema_load) CreateOrderSchema_dump "null"
    (world0 stocked)
  = (Raise TypeError, world0 stocked) ∧
  isinstance TypeError create_order_expected_exceptions = false.
Proof.
  apply (null_body_is_not_refused rpc_accepting json_dumps json_loads_with_null
           (none_passes ProductSchema_load) (none_passes CreateOrderSchema_load)
           CreateOrderSchema_dump (world0 stocked) "null" (Ok VNone) stocked);
    shop_facts.
Defined.

(** Further examples. *)

Lemma product_ids_survive_enrichment_witness :
  ∃ order',
    _fill_order_details_with_product image_root
      (VDict (order 1 [item "p1" 2; item "p2" 1]))
      {[ "p1" := VDict p1; "p2" := VDict p2 ]}
    = Ok order' ∧
    _get_product_ids_from_order order' = Ok ["p1"; "p2"].
Proof.
  apply (product_ids_survive_enrichment image_root _ _
           [item "p1" 2; item "p2" 1] ["p1"; "p2"]); shop_facts.
Defined.

(** A map with one more product enriches an order for [p1] alike. *)
Lemma enrichment_reads_only_referenced_ids_witness :
  _fill_order_details_with_product image_root
    (VDict (order 1 [item "p1" 2])) {[ "p1" := VDict p1 ]}
  = _fill_order_details_with_product image_root
      (VDict (order 1 [item "p1" 2])) {[ "p1" := VDict p1; "p2" := VDict p2 ]}.
Proof.
  apply (enrichment_reads_only_referenced_ids image_root _ _ _
           [item "p1" 2] ["p1"]); [shop_facts|].
  intros id Hin. apply list_elem_of_singleton in Hin as ->. reflexivity.
Defined.

(** The catalog answers with two products of id [p1]; the later one,
    titled [New], is kept. *)
Lemma last_product_of_an_id_wins_witness :
  ∃ product_map,
    product_map_of
      (VList (VDict <$> ([p1] ++ <["title" := VStr "New"]> p1 :: [p2])))
    = Ok product_map ∧
    product_map !! "p1" = Some (VDict (<["title" := VStr "New"]> p1)).
Proof.
  apply (last_product_of_an_id_wins [p1] ["p1"] _ "p1" [p2] ["p2"]);
    shop_facts.
Defined.

Lemma image_url_injective_witness :
  image_url image_root "p1" = image_url image_root "p1" ∧ "p1" = "p1".
Proof.
  split; [reflexivity|].
  apply (image_url_injective image_root "p1" "p1"). reflexivity.
Defined.

Lemma order_created_only_if_valid_witness :
  Forall (λ id, id ∈ ["p1"]) ["p1"; "p1"].
Proof.
  apply (order_created_only_if_valid rpc CreateOrderSchema_dump
           (world0 stocked) (payload [item "p1" 2; item "p1" 1])
           [item "p1" 2; item "p1" 1] ["p1"; "p1"] [p1] ["p1"]
           stocked); try solve [shop_facts].
  vm_compute. discriminate.
Defined.

Lemma create_order_responds_with_the_new_id_witness :
  create_order rpc json_dumps json_loads CreateOrderSchema_load
    CreateOrderSchema_dump "order p1 p1" (world0 stocked)
  = (Ok {| response_data := json_dumps (VDict {[ "id" := VInt 1 ]});
           mimetype := "application/json" |},
     mkWorld (mkShop [p1; p2] [order 1 [item "p1" 2; item "p1" 1]])
       [products_list ["p1"; "p1"];
        orders_create_order (VList (VDict <$> [item "p1" 2; item "p1" 1]))]).
Proof.
  apply (create_order_responds_with_the_new_id rpc json_dumps json_loads
           CreateOrderSchema_load CreateOrderSchema_dump (world0 stocked)
           "order p1 p1" (VDict (payload [item "p1" 2; item "p1" 1]))
           (payload [item "p1" 2; item "p1" 1])
           [item "p1" 2; item "p1" 1] ["p1"; "p1"] [p1] ["p1"] stocked
           (VList (VDict <$> [item "p1" 2; item "p1" 1]))
           (order 1 [item "p1" 2; item "p1" 1]) (VInt 1)); shop_facts.
Defined.

Lemma empty_order_is_submitted_witness :
  _create_order rpc CreateOrderSchema_dump (VDict (payload [])) (world0 stocked)
  = submit_order rpc CreateOrderSchema_dump (VDict (payload []))
      (mkWorld stocked [products_list []]).
Proof.
  apply (empty_order_is_submitted rpc CreateOrderSchema_dump (world0 stocked)
           (payload []) [] [] stocked); shop_facts.
Defined.

(** The second order of the ledger is for a product the catalog does not
    have: the listing fails, although the first order could be enriched. *)
Lemma one_missing_product_fails_the_listing_witness :
  _get_all_orders rpc image_root
    (world0 (mkShop [p1] [order 1 [item "p1" 2]; order 2 [item "ghost" 1]]))
  = (Raise (KeyError "ghost"),
     mkWorld (mkShop [p1] [order 1 [item "p1" 2]; order 2 [item "ghost" 1]])
       [orders_list_orders; products_list ["p1"; "ghost"]]).
Proof.
  apply (one_missing_product_fails_the_listing rpc image_root
           (world0 (mkShop [p1] [order 1 [item "p1" 2];
                                 order 2 [item "ghost" 1]]))
           [order 1 [item "p1" 2]; order 2 [item "ghost" 1]]
           [([item "p1" 2], ["p1"]); ([item "ghost" 1], ["ghost"])]
           (mkShop [p1] [order 1 [item "p1" 2]; order 2 [item "ghost" 1]])
           [p1] ["p1"]
           (mkShop [p1] [order 1 [item "p1" 2]; order 2 [item "ghost" 1]])
           [([item "p1" 2], ["p1"])] [item "ghost" 1] [] "ghost" [] []);
    shop_facts.
Defined.

Lemma order_without_details_stops_the_listing_witness :
  _get_all_orders rpc image_root
    (world0 (mkShop [p1] [order 1 [item "p1" 2]; {[ "id" := VInt 2 ]}]))
  = (Raise (KeyError "order_details"),
     mkWorld (mkShop [p1] [order 1 [item "p1" 2]; {[ "id" := VInt 2 ]}])
       [orders_list_orders]).
Proof.
  apply (order_without_details_stops_the_listing rpc image_root
           (world0 (mkShop [p1] [order 1 [item "p1" 2]; {[ "id" := VInt 2 ]}]))
           [order 1 [item "p1" 2]] [([item "p1" 2], ["p1"])]
           {[ "id" := VInt 2 ]} []
           (mkShop [p1] [order 1 [item "p1" 2]; {[ "id" := VInt 2 ]}]));
    shop_facts.
Defined.

Lemma get_order_attaches_the_product_of_the_id_witness :
  ∃ items',
    (_get_order rpc image_root 2 (world0 trading)).1
    = Ok (VDict (<["order_details" := VList (VDict <$> items')]>
                   (order 2 [item "p2" 5]))) ∧
    Forall2 (λ item' product_id,
               item' !! "product_id" = Some (VStr product_id) ∧
               ∃ prod, prod ∈ [p2] ∧
                 prod !! "id" = Some (VStr product_id) ∧
                 item' !! "product" = Some (VDict prod))
            items' ["p2"].
Proof.
  apply (get_order_attaches_the_product_of_the_id rpc image_root
           (world0 trading) 2 (order 2 [item "p2" 5]) [item "p2" 5] ["p2"]
           trading [p2] ["p2"] trading); shop_facts.
Defined.

Lemma create_product_responds_with_the_id_witness :
  create_product rpc json_dumps json_loads ProductSchema_load "p1"
    (world0 (mkShop [] []))
  = (Ok {| response_data := json_dumps (VDict {[ "id" := VStr "p1" ]});
           mimetype := "application/json" |},
     mkWorld (mkShop [p1] []) [products_create (VDict p1)]).
Proof.
  apply (create_product_responds_with_the_id rpc json_dumps json_loads
           ProductSchema_load (world0 (mkShop [] [])) "p1" (VDict p1)
           (VDict p1) VNone (mkShop [p1] []) (VStr "p1")); shop_facts.
Defined.

Lemma line_item_without_product_id_stops_get_order_witness :
  _get_order rpc image_root 1
    (world0 (mkShop [p1] [order 1 [item "p1" 2; {[ "quantity" := VInt 1 ]}]]))
  = (Raise (KeyError "product_id"),
     mkWorld (mkShop [p1] [order 1 [item "p1" 2; {[ "quantity" := VInt 1 ]}]])
       [orders_get_order 1]).
Proof.
  apply (line_item_without_product_id_stops_get_order rpc image_root
           (world0 (mkShop [p1]
                      [order 1 [item "p1" 2; {[ "quantity" := VInt 1 ]}]]))
           1 (order 1 [item "p1" 2; {[ "quantity" := VInt 1 ]}])
           [item "p1" 2] ["p1"] {[ "quantity" := VInt 1 ]} []
           (mkShop [p1] [order 1 [item "p1" 2; {[ "quantity" := VInt 1 ]}]]));
    shop_facts.
Defined.

(** With the catalog out of reach, no order is created and none is
    returned. *)
Lemma lookup_failure_is_passed_on_witness :
  _create_order rpc_catalog_down CreateOrderSchema_dump
    (VDict (payload [item "p1" 2])) (world0 stocked)
  = (Raise (RemoteError "products"), mkWorld stocked [products_list ["p1"]]) ∧
  _get_all_orders rpc_catalog_down image_root (world0 trading)
  = (Raise (RemoteError "products"),
     mkWorld trading [orders_list_orders; products_list ["p1"; "p1"; "p2"]]) ∧
  _get_order rpc_catalog_down image_root 2 (world0 trading)
  = (Raise (RemoteError "products"),
     mkWorld trading [orders_get_order 2; products_list ["p2"]]).
Proof.
  destruct (lookup_failure_is_passed_on rpc_catalog_down image_root
              CreateOrderSchema_dump (RemoteError "products"))
    as (Hcreate & Hall & Hone).
  split; [|split].
  - apply (Hcreate (world0 stocked) (payload [item "p1" 2]) [item "p1" 2]
             ["p1"] stocked); shop_facts.
  - apply (Hall (world0 trading)
             [order 1 [item "p1" 2; item "p1" 1]; order 2 [item "p2" 5]]
             [([item "p1" 2; item "p1" 1], ["p1"; "p1"]);
              ([item "p2" 5], ["p2"])]
             trading trading); shop_facts.
  - apply (Hone (world0 trading) 2%Z (order 2 [item "p2" 5]) [item "p2" 5]
             ["p2"] trading trading); shop_facts.
Defined.

End Examples.
